(** * MMM-Multi-Wind: a shallow embedding of the wind module and its node helper

    The development follows the two source files of the repository:

    - [node_helper.js]: the URL builder ([formatCoordinate], [getProviderUrl]),
      the provider parsers ([parseYrData], [parseSmhiData],
      [parseProviderData]) and the fetch callbacks of [getWindData];
    - [MMM-Multi-Wind.js] (version 2.1.0): the classifiers
      ([getBeaufortForce], [getDirectionIcon], [getWindDirection]), the
      renderer's state selection ([getDom]) and the scheduler
      ([start], [scheduleUpdate], [getData], [socketNotificationReceived]).

    A JavaScript number is modelled by the rational that it denotes ([Q]).
    The remainder [%] and the comparisons are exact on doubles and exact in
    the model; the one sum of the source, in the normalization of a
    direction, is rounded to the nearest double ([Wind.to_double]).  A
    numeral of the model that is not a double (0.2, 32.6, ...) stands for
    the double nearest to it: the comparisons agree except for an input
    within one rounding of the constant it is compared with, and the values
    the properties below evaluate are not such inputs.  [NaN] and the
    infinities are values of the configured coordinates only
    ([Wind.number]); the one place the source writes [Infinity], the last
    Beaufort ceiling, has a constructor of its own.  Thrown exceptions are
    the [Throw] case of [result]. *)

From Stdlib Require Import ZArith QArith Qround Qabs Qminmax Qpower Lqa Lia.
From Stdlib Require Import String Ascii List Bool DecimalString DecimalN.
Import ListNotations.

Local Open Scope string_scope.

(** ** Exceptions *)

Inductive exn : Type :=
| Error (msg : string)       (* [new Error(msg)] *)
| TypeError (msg : string).  (* raised by the runtime *)

Inductive result (A : Type) : Type :=
| Ok (a : A)
| Throw (e : exn).

Arguments Ok {A} a.
Arguments Throw {A} e.

Definition bind {A B : Type} (r : result A) (k : A -> result B) : result B :=
  match r with
  | Ok a => k a
  | Throw e => Throw e
  end.

Notation "x <- r ;; k" := (bind r (fun x => k))
  (at level 61, r at next level, right associativity).

Definition throws {A : Type} (r : result A) : Prop := exists e, r = Throw e.

(** ** Values produced by [JSON.parse], plus [undefined] *)

Module JS.

Inductive value : Type :=
| VUndefined
| VNull
| VBool (b : bool)
| VNum (q : Q)
| VStr (s : string)
| VArr (xs : list value)
| VObj (fields : list (string * value)).

(** ToBoolean. *)
Definition truthy (v : value) : bool :=
  match v with
  | VUndefined | VNull => false
  | VBool b => b
  | VNum q => negb (Qeq_bool q 0)
  | VStr s => negb (String.eqb s "")
  | VArr _ | VObj _ => true
  end.

Definition nullish (v : value) : bool :=
  match v with
  | VUndefined | VNull => true
  | _ => false
  end.

(** [typeof v === 'number'] *)
Definition is_number (v : value) : bool :=
  match v with
  | VNum _ => true
  | _ => false
  end.

Fixpoint lookup (k : string) (fields : list (string * value)) : value :=
  match fields with
  | [] => VUndefined
  | (k', v) :: rest => if String.eqb k k' then v else lookup k rest
  end.

(** [v.k] on a base that is neither [null] nor [undefined]: own data
    properties of a parsed document.  The names read by the helper
    ([properties], [timeseries], [data], [instant], [details],
    [wind_speed], [wind_from_direction], [timeSeries], [parameters],
    [name], and [values] on an object) are not members of
    [Object.prototype], [Number.prototype], [Boolean.prototype] or
    [String.prototype]; [Array.prototype.find] is modelled by
    [array_find] below. *)
Definition get_prop (v : value) (k : string) : value :=
  match v with
  | VObj fields => lookup k fields
  | _ => VUndefined
  end.

(** [v[0]] on a base that is neither [null] nor [undefined]: the first
    element of an array, the property ["0"] of an object, the first
    character of a string. *)
Definition get_index0 (v : value) : value :=
  match v with
  | VArr (x :: _) => x
  | VObj fields => lookup "0" fields
  | VStr (String c _) => VStr (String c "")
  | _ => VUndefined
  end.

(** [v.k]: a TypeError on [null] and [undefined]. *)
Definition member (v : value) (k : string) : result value :=
  if nullish v then Throw (TypeError "Cannot read properties of null or undefined")
  else Ok (get_prop v k).

Definition index0 (v : value) : result value :=
  if nullish v then Throw (TypeError "Cannot read properties of null or undefined")
  else Ok (get_index0 v).

(** [v?.k] and [v?.[0]] *)
Definition opt_member (v : value) (k : string) : value :=
  if nullish v then VUndefined else get_prop v k.

Definition opt_index0 (v : value) : value :=
  if nullish v then VUndefined else get_index0 v.

(** [xs.find(p => pred p)], where the callback may throw. *)
Fixpoint find_with (pred : value -> result bool) (xs : list value)
  : result value :=
  match xs with
  | [] => Ok VUndefined
  | x :: rest =>
      b <- pred x ;;
      if (b : bool) then Ok x else find_with pred rest
  end.

(** [v.find(callback)]: only arrays have a callable [find]. *)
Definition array_find (v : value) (pred : value -> result bool)
  : result value :=
  match v with
  | VArr xs => find_with pred xs
  | _ => Throw (TypeError "find is not a function")
  end.

(** [v === n] for a string literal [n]. *)
Definition strict_eq_string (v : value) (n : string) : bool :=
  match v with
  | VStr s => String.eqb s n
  | _ => false
  end.

(** The callback [p => p.name === n]. *)
Definition name_is (n : string) (p : value) : result bool :=
  nm <- member p "name" ;;
  Ok (strict_eq_string nm n).

End JS.

Import JS.

Notation "v ?. k" := (opt_member v k) (at level 1, left associativity).
Notation "v ?.[0]" := (opt_index0 v) (at level 1, left associativity).

(** ** node_helper.js: the provider parsers *)

(** The record both parsers build.  Its fields hold whatever the document
    held at the place read, so they are values, not numbers. *)
Record WindObservation : Type := mkObs {
  windSpeed : value;
  windDirection : value
}.

Definition fully_populated (o : WindObservation) : bool :=
  is_number (windSpeed o) && is_number (windDirection o).

Definition yr_details (data : value) : value :=
  data ?. "properties" ?. "timeseries" ?.[0] ?. "data" ?. "instant" ?. "details".

Definition parseYrData (data : value) : result WindObservation :=
  if negb (truthy (yr_details data))
  then Throw (Error "Invalid YR data structure")
  else
    properties <- member data "properties" ;;
    timeseries <- member properties "timeseries" ;;
    first <- index0 timeseries ;;
    d <- member first "data" ;;
    instant <- member d "instant" ;;
    details <- member instant "details" ;;
    wind_speed <- member details "wind_speed" ;;
    wind_from_direction <- member details "wind_from_direction" ;;
    Ok {| windSpeed := wind_speed; windDirection := wind_from_direction |}.

Definition smhi_parameters (data : value) : value :=
  data ?. "timeSeries" ?.[0] ?. "parameters".

(** [currentData.parameters.find(p => p.name === n)?.values?.[0]] *)
Definition smhi_first_value (parameters : value) (n : string) : result value :=
  p <- array_find parameters (name_is n) ;;
  Ok (p ?. "values" ?.[0]).

Definition parseSmhiData (data : value) : result WindObservation :=
  if negb (truthy (smhi_parameters data))
  then Throw (Error "Invalid SMHI data structure")
  else
    timeSeries <- member data "timeSeries" ;;
    currentData <- index0 timeSeries ;;
    parameters <- member currentData "parameters" ;;
    windSpeed <- smhi_first_value parameters "ws" ;;
    windDirection <- smhi_first_value parameters "wd" ;;
    if negb (is_number windSpeed) || negb (is_number windDirection)
    then Throw (Error "Missing wind parameters")
    else Ok {| windSpeed := windSpeed; windDirection := windDirection |}.

(** The links of the YR path, from the document to the detail block. *)
Definition yr_links (data : value) : list value :=
  [data;
   data ?. "properties";
   data ?. "properties" ?. "timeseries";
   data ?. "properties" ?. "timeseries" ?.[0];
   data ?. "properties" ?. "timeseries" ?.[0] ?. "data";
   data ?. "properties" ?. "timeseries" ?.[0] ?. "data" ?. "instant";
   yr_details data].

(** *** The entries of an SMHI parameter sequence, and the one [find]
    returns *)

(** An entry of the sequence carries the name [n]. *)
Definition is_named (n : string) (p : value) : bool :=
  strict_eq_string (get_prop p "name") n.

(** The sequence has a parameter named [n]. *)
Definition has_named (n : string) (ps : list value) : bool :=
  existsb (is_named n) ps.

(** [p] is the entry of [ps] that [find] reaches for the name [n]: the
    first entry so named, no entry before it being [null] or
    [undefined]. *)
Definition first_named (n : string) (ps : list value) (p : value) : Prop :=
  exists before after,
    ps = (before ++ p :: after)%list
    /\ is_named n p = true
    /\ Forall (fun q => nullish q = false /\ is_named n q = false) before.

(** The first value of a parameter: [p.values[0]]. *)
Definition first_value (p : value) : value := p ?. "values" ?.[0].

(** The success case of the SMHI parser as the specification states it: a
    parameter sequence that contains a parameter named ["ws"] and one named
    ["wd"], both with a number as first value, parses to these two
    numbers. *)
Definition parses_named_parameters : Prop :=
  forall data ps pw pd s d,
    smhi_parameters data = VArr ps ->
    In pw ps -> is_named "ws" pw = true -> first_value pw = VNum s ->
    In pd ps -> is_named "wd" pd = true -> first_value pd = VNum d ->
    parseSmhiData data
    = Ok {| windSpeed := VNum s; windDirection := VNum d |}.

(** The [try]/[catch] of [parseProviderData] logs and rethrows. *)
Definition parseProviderData (data : value) (provider : string)
  : result WindObservation :=
  if String.eqb provider "yr" then parseYrData data else parseSmhiData data.

(** ** node_helper.js: the URL builder *)

Module Helper.

(** The payload of [GET_WIND_DATA], as the module sends it: numbers for the
    coordinates and the altitude. *)
Record RequestConfig : Type := mkRequest {
  provider : string;
  lat : Q;
  lon : Q;
  altitude : Z
}.

Definition Qlt_bool (a b : Q) : bool := negb (Qle_bool b a).

(** The decimal digits of a natural number, most significant first. *)
Definition decimal_digits (n : Z) : string :=
  NilZero.string_of_uint (N.to_uint (Z.to_N n)).

Fixpoint zeros (k : nat) : string :=
  match k with
  | O => ""
  | S k' => String "0" (zeros k')
  end.

Section Runtime.

(** [Number::toString] is the runtime's, not the repository's: it is used
    for the YR query string and by the branch of [toFixed] for numbers of
    magnitude 10^21 and more. *)
Variable Number_toString : Q -> string.

(** [JSON.parse], the runtime's as well. *)
Variable JSON_parse : string -> result value.

(** [Number.prototype.toFixed(f)], step by step as ECMAScript gives it:
    sign, the 10^21 escape, the integer [n] nearest to [x * 10^f] (the larger
    one on a tie), its digits padded with zeros to [f + 1] characters, and
    the point inserted [f] characters from the end. *)
Definition toFixed (x : Q) (f : nat) : string :=
  let s := if Qlt_bool x 0 then "-" else "" in
  let x := Qabs x in
  if Qle_bool (inject_Z (10 ^ 21)) x then s ++ Number_toString x
  else
    let n := Qfloor (x * inject_Z (10 ^ Z.of_nat f) + (1 # 2)) in
    let m := decimal_digits n in
    let m :=
      if (f =? 0)%nat then m
      else
        let k := String.length m in
        let m := if (k <=? f)%nat then zeros (f + 1 - k) ++ m else m in
        let k := String.length m in
        let a := substring 0 (k - f) m in
        let b := substring (k - f) f m in
        a ++ "." ++ b
    in
    s ++ m.

(** [parseFloat] applied to a number converts it to a string and reads it
    back; the round trip returns the number. *)
Definition parseFloat (x : Q) : Q := x.

(** [parseInt(config.altitude || 0)] on an integer altitude. *)
Definition parseInt (n : Z) : Z := n.

(** [typeof coord === 'string'] is false for the numbers [getProviderUrl]
    passes. *)
Definition formatCoordinate (coord : Q) : string :=
  let numCoord := coord in
  toFixed numCoord 6.

Definition getProviderUrl (config : RequestConfig) : string :=
  let lat := parseFloat (lat config) in
  let lon := parseFloat (lon config) in
  let altitude := parseInt (if (altitude config =? 0)%Z then 0%Z else altitude config) in
  let provider := provider config in
  if String.eqb provider "yr" then
    "https://api.met.no/weatherapi/locationforecast/2.0/complete?altitude="
      ++ Number_toString (inject_Z altitude)
      ++ "&lat=" ++ Number_toString lat
      ++ "&lon=" ++ Number_toString lon
  else
    let formattedLon := formatCoordinate lon in
    let formattedLat := formatCoordinate lat in
    "https://opendata-download-metfcst.smhi.se/api/category/pmp3g/version/2/geotype/point/lon/"
      ++ formattedLon ++ "/lat/" ++ formattedLat ++ "/data.json".

(** ** node_helper.js: [getWindData] *)

(** The effects of the helper, in the order it performs them. *)
Inductive effect : Type :=
| HttpsGet (url : string) (timeout : Z)
| Resume                                   (* [resp.resume()] *)
| Abort                                    (* [request.abort()] *)
| JsonParse (rawData : string)             (* [JSON.parse(rawData)] *)
| ParseProvider (provider : string) (jsonData : value)
| SendSocketNotification (notification : string)
                         (payload : option WindObservation).

(** What the runtime emits while a request is under way: the ['error'] and
    ['timeout'] events of the request, the response callback with its status
    code, and the ['data'] and ['end'] events of the response. *)
Inductive signal : Type :=
| OnError (message : string)
| OnTimeout
| OnResponse (statusCode : Z)
| OnData (chunk : string)
| OnEnd.

(** The closure of the response callback: whether it has attached its
    ['data'] and ['end'] listeners (it does so for status 200 only), and the
    body buffered so far. *)
Record Body : Type := mkBody {
  listening : bool;
  rawData : string
}.

(** The ['end'] listener: the [try] block and its [catch]. *)
Definition on_end (provider rawData : string) : list effect :=
  JsonParse rawData ::
  match JSON_parse rawData with
  | Throw _ => [SendSocketNotification "WIND_DATA_ERROR" None]
  | Ok jsonData =>
      ParseProvider provider jsonData ::
      match parseProviderData jsonData provider with
      | Ok windData => [SendSocketNotification "WIND_DATA" (Some windData)]
      | Throw _ => [SendSocketNotification "WIND_DATA_ERROR" None]
      end
  end.

(** The listeners of [getWindData], one signal at a time.  A response has no
    listener for ['error'], ['aborted'] or ['close']; ['data'] and ['end'] on
    a response whose status was not 200 find no listener either. *)
Definition react (provider : string) (b : Body) (s : signal)
  : Body * list effect :=
  match s with
  | OnResponse statusCode =>
      if negb (statusCode =? 200)%Z
      then (b, [Resume; SendSocketNotification "WIND_DATA_ERROR" None])
      else ({| listening := true; rawData := "" |}, [])
  | OnData chunk =>
      if listening b
      then ({| listening := true; rawData := rawData b ++ chunk |}, [])
      else (b, [])
  | OnEnd =>
      if listening b then (b, on_end provider (rawData b)) else (b, [])
  | OnError _ => (b, [SendSocketNotification "WIND_DATA_ERROR" None])
  | OnTimeout => (b, [Abort; SendSocketNotification "WIND_DATA_ERROR" None])
  end.

Fixpoint listeners (provider : string) (b : Body) (signals : list signal)
  : list effect :=
  match signals with
  | [] => []
  | s :: rest =>
      let '(b', effects) := react provider b s in
      (effects ++ listeners provider b' rest)%list
  end.

(** [getWindData] on the signals the runtime emits for its request. *)
Definition getWindData_on (config : RequestConfig) (signals : list signal)
  : list effect :=
  let provider := if String.eqb (provider config) "" then "smhi" else provider config in
  let url := getProviderUrl config in
  HttpsGet url 10000 ::
  listeners provider {| listening := false; rawData := "" |} signals.

(** How one HTTPS exchange goes: the request fails; it times out; a response
    arrives and its body is read to the end; a response arrives and its body
    is cut before the end.  The request that the ['timeout'] listener aborts
    emits ['error'] in its turn (Node's "socket hang up"), so a timeout
    reaches both listeners. *)
Inductive exchange : Type :=
| RequestError (message : string)
| RequestTimeout
| Response (statusCode : Z) (rawData : string)
| ResponseCut (statusCode : Z) (received : string).

Definition signals (x : exchange) : list signal :=
  match x with
  | RequestError message => [OnError message]
  | RequestTimeout => [OnTimeout; OnError "socket hang up"]
  | Response statusCode rawData => [OnResponse statusCode; OnData rawData; OnEnd]
  | ResponseCut statusCode received => [OnResponse statusCode; OnData received]
  end.

Definition getWindData (config : RequestConfig) (x : exchange) : list effect :=
  getWindData_on config (signals x).

(** The notifications an effect trace sends, and the parser calls it makes. *)
Definition sent (t : list effect) : list (string * option WindObservation) :=
  flat_map (fun e => match e with
                     | SendSocketNotification n p => [(n, p)]
                     | _ => []
                     end) t.

Definition is_parser_call (e : effect) : bool :=
  match e with
  | JsonParse _ | ParseProvider _ _ => true
  | _ => false
  end.

Definition parser_calls (t : list effect) : list effect :=
  filter is_parser_call t.

(** *** The socket handler of the helper *)

(** Only [GET_WIND_DATA] starts an acquisition; [x] is how the exchange it
    starts ends. *)
Definition socketNotificationReceived (notification : string)
  (payload : RequestConfig) (x : exchange) : list effect :=
  if String.eqb notification "GET_WIND_DATA" then getWindData payload x else [].

(** The requests a trace issues. *)
Definition requested (t : list effect) : list (string * Z) :=
  flat_map (fun e => match e with
                     | HttpsGet url timeout => [(url, timeout)]
                     | _ => []
                     end) t.

End Runtime.

End Helper.

(** ** MMM-Multi-Wind.js (version 2.1.0) *)

Module Wind.

(** A coordinate of the configuration, as the number its value converts to
    where the source does arithmetic on it: [NaN] for a value that is not
    numeric (a missing one, a word), and the two infinities. *)
Inductive number : Type :=
| Num (q : Q)
| NaN
| PlusInfinity
| MinusInfinity.

(** [Math.max(x, b)] and [Math.min(x, b)] for a finite bound [b]: [NaN] is
    returned as it is. *)
Definition Math_max (x : number) (b : Q) : number :=
  match x with
  | Num q => Num (Qmax q b)
  | NaN => NaN
  | PlusInfinity => PlusInfinity
  | MinusInfinity => Num b
  end.

Definition Math_min (x : number) (b : Q) : number :=
  match x with
  | Num q => Num (Qmin q b)
  | NaN => NaN
  | PlusInfinity => Num b
  | MinusInfinity => MinusInfinity
  end.

Record Config : Type := mkConfig {
  lat : number;
  lon : number;
  provider : string;
  updateInterval : Z;
  animationSpeed : Z;
  directionType : string;
  displayType : string;
  iconOnly : bool;
  language : string;
  layout : string;
  altitude : Z;
  retryDelay : Z;
  maxRetries : Z
}.

Definition defaults : Config := {|
  lat := Num 57.7089;
  lon := Num 11.9746;
  provider := "smhi";
  updateInterval := 30 * 60 * 1000;
  animationSpeed := 1000;
  directionType := "compass";
  displayType := "textsea";
  iconOnly := false;
  language := "en";
  layout := "vertical";
  altitude := 0;
  retryDelay := 2000;
  maxRetries := 3
|}.

Definition set_directionType (t : string) (c : Config) : Config :=
  {| lat := lat c; lon := lon c; provider := provider c;
     updateInterval := updateInterval c; animationSpeed := animationSpeed c;
     directionType := t; displayType := displayType c;
     iconOnly := iconOnly c; language := language c; layout := layout c;
     altitude := altitude c; retryDelay := retryDelay c;
     maxRetries := maxRetries c |}.

(** *** Comparisons and the remainder on numbers *)

Definition leb (a b : Q) : bool := Qle_bool a b.       (* a <= b *)
Definition ltb (a b : Q) : bool := negb (Qle_bool b a). (* a < b *)
Definition geb (a b : Q) : bool := Qle_bool b a.       (* a >= b *)
Definition gtb (a b : Q) : bool := negb (Qle_bool a b). (* a > b *)

(** [Math.trunc] of a rational. *)
Definition Qtrunc (x : Q) : Z := Z.quot (Qnum x) (Zpos (Qden x)).

(** [x % y] for [y <> 0]: the remainder has the sign of the dividend. *)
Definition js_rem (x y : Q) : Q := x - y * inject_Z (Qtrunc (x / y)).

(** The sum of two numbers is the double nearest to their exact sum, the
    one with the even significand on a tie.  [leading_bit a] is the [e] with
    [2^e <= a < 2^(e+1)]; a double has 53 significant bits, and exponents
    from -1022 up.  (Sums of magnitude 2^1024 and more, which overflow, do
    not occur below: the operands of the one sum of the source are smaller
    than 360 in magnitude.) *)
Definition pow2 (e : Z) : Q := Qpower 2 e.

Definition leading_bit (a : Q) : Z :=
  let e := (Z.log2 (Qnum a) - Z.log2 (Zpos (Qden a)))%Z in
  if Qle_bool (pow2 e) a then e else (e - 1)%Z.

Definition round_half_even (y : Q) : Z :=
  let f := Qfloor y in
  match Qcompare (y - inject_Z f) (1 # 2) with
  | Lt => f
  | Gt => (f + 1)%Z
  | Eq => if Z.even f then f else (f + 1)%Z
  end.

Definition to_double (x : Q) : Q :=
  if Qeq_bool x 0 then 0
  else
    let a := Qabs x in
    let e := Z.max (leading_bit a) (-1022) in
    let ulp := pow2 (e - 52) in
    let m := inject_Z (round_half_even (a / ulp)) in
    if Qle_bool 0 x then m * ulp else - (m * ulp).

Definition add (a b : Q) : Q := to_double (a + b).

(** [((degrees % 360) + 360) % 360]: the remainders are exact, the sum is
    rounded. *)
Definition normalize (degrees : Q) : Q :=
  js_rem (add (js_rem degrees 360) 360) 360.

(** The sums that the normalization makes at whole and half degrees, all
    of them below 720, are doubles. *)
Definition halves_exact : bool :=
  forallb (fun n => Qeq_bool (to_double (Z.of_nat n # 2)) (Z.of_nat n # 2))
          (seq 1 1439).

(** A direction just above -157.5, which a full turn more moves across a
    boundary of the icon classifier. *)
Definition above_south_boundary : Q := -157.5 + (1 # 35184372088832).

(** *** The Beaufort classifier *)

(** A ceiling of the Beaufort table: a number or [Infinity]. *)
Inductive ceiling : Type :=
| Fin (q : Q)
| Infinity.

Record Scale : Type := mkScale {
  max : ceiling;
  force : Z
}.

Definition beaufortScale : list Scale := [
  {| max := Fin 0.2; force := 0 |};
  {| max := Fin 1.5; force := 1 |};
  {| max := Fin 3.3; force := 2 |};
  {| max := Fin 5.4; force := 3 |};
  {| max := Fin 7.9; force := 4 |};
  {| max := Fin 10.7; force := 5 |};
  {| max := Fin 13.8; force := 6 |};
  {| max := Fin 17.1; force := 7 |};
  {| max := Fin 20.7; force := 8 |};
  {| max := Fin 24.4; force := 9 |};
  {| max := Fin 28.4; force := 10 |};
  {| max := Fin 32.6; force := 11 |};
  {| max := Infinity; force := 12 |}
].

(** [speed <= scale.max] *)
Definition le_ceiling (speed : Q) (c : ceiling) : bool :=
  match c with
  | Fin q => leb speed q
  | Infinity => true
  end.

(** [beaufortScale.find(scale => speed <= scale.max).force]: reading
    [force] of [undefined] is a TypeError. *)
Definition getBeaufortForce (speed : Q) : result Z :=
  match find (fun scale => le_ceiling speed (max scale)) beaufortScale with
  | Some scale => Ok (force scale)
  | None => Throw (TypeError "Cannot read properties of undefined")
  end.

(** The classifier in the words of the specification: the ceilings of forces
    0 to 11, scanned from the lowest; force 12 above the last. *)
Definition beaufort_ceilings : list Q :=
  [0.2; 1.5; 3.3; 5.4; 7.9; 10.7; 13.8; 17.1; 20.7; 24.4; 28.4; 32.6]%Q.

Fixpoint first_bucket (s : Q) (ceilings : list Q) (k : Z) : Z :=
  match ceilings with
  | [] => k
  | c :: rest => if Qle_bool s c then k else first_bucket s rest (k + 1)
  end.

Definition classifyBeaufort (s : Q) : Z := first_bucket s beaufort_ceilings 0.

(** *** The direction classifiers *)

Definition getDirectionIcon (degrees : Q) : string :=
  if Qeq_bool degrees 0 then "wi-na"
  else
    let normalizedDegrees := normalize degrees in
    if gtb normalizedDegrees 337.5 || leb normalizedDegrees 22.5 then "wi-direction-down"
    else if leb normalizedDegrees 67.5 then "wi-direction-down-left"
    else if leb normalizedDegrees 112.5 then "wi-direction-left"
    else if leb normalizedDegrees 157.5 then "wi-direction-up-left"
    else if leb normalizedDegrees 202.5 then "wi-direction-up"
    else if leb normalizedDegrees 247.5 then "wi-direction-up-right"
    else if leb normalizedDegrees 292.5 then "wi-direction-right"
    else if leb normalizedDegrees 337.5 then "wi-direction-down-right"
    else "wi-na".

(** A row of the table of [getWindDirection]; [dmax] is the [max] of the
    source, [max] being the field of [Scale] here. *)
Record Direction : Type := mkDirection {
  min : Q;
  dmax : Q;
  dir : string
}.

Definition directions : list Direction := [
  {| min := 337.5; dmax := 22.5; dir := "N" |};
  {| min := 22.5; dmax := 67.5; dir := "NE" |};
  {| min := 67.5; dmax := 112.5; dir := "E" |};
  {| min := 112.5; dmax := 157.5; dir := "SE" |};
  {| min := 157.5; dmax := 202.5; dir := "S" |};
  {| min := 202.5; dmax := 247.5; dir := "SW" |};
  {| min := 247.5; dmax := 292.5; dir := "W" |};
  {| min := 292.5; dmax := 337.5; dir := "NW" |}
].

(** The callback of [directions.find]. *)
Definition in_range (normalizedDegrees : Q) (d : Direction) : bool :=
  (ltb (min d) (dmax d) && geb normalizedDegrees (min d) && ltb normalizedDegrees (dmax d))
  || (gtb (min d) (dmax d) && (geb normalizedDegrees (min d) || ltb normalizedDegrees (dmax d))).

(** The eight octants, each with the translation key of the text classifier
    and the icon the icon classifier returns on the octant's range (the
    rows of [directions] and the lines of [getDirectionIcon], in order). *)
Inductive octant : Type :=
| North | NorthEast | East | SouthEast | South | SouthWest | West | NorthWest.

Definition octant_key (o : octant) : string :=
  match o with
  | North => "N" | NorthEast => "NE" | East => "E" | SouthEast => "SE"
  | South => "S" | SouthWest => "SW" | West => "W" | NorthWest => "NW"
  end.

Definition octant_icon (o : octant) : string :=
  match o with
  | North => "wi-direction-down"
  | NorthEast => "wi-direction-down-left"
  | East => "wi-direction-left"
  | SouthEast => "wi-direction-up-left"
  | South => "wi-direction-up"
  | SouthWest => "wi-direction-up-right"
  | West => "wi-direction-right"
  | NorthWest => "wi-direction-down-right"
  end.

Section Host.

(** [this.translate] is MagicMirror's, and [Number::toString] the
    runtime's. *)
Variable translate : string -> string.
Variable Number_toString : Q -> string.

Definition getTextSea (speed : Q) : string :=
  if geb speed 32.7 then translate "HURRICANE"
  else if geb speed 24.5 then translate "STORM"
  else if geb speed 13.9 then translate "GALE"
  else if geb speed 0.3 then translate "BREEZE"
  else translate "CALM".

Definition getWindDirection (config : Config) (degrees : Q) : string :=
  if Qeq_bool degrees 0 then "N/A"
  else if String.eqb (directionType config) "compass" then
    let normalizedDegrees := normalize degrees in
    let direction := find (in_range normalizedDegrees) directions in
    translate (match direction with
               | Some d => dir d
               | None => "N"
               end)
  else Number_toString degrees ++ "°".

(** *** Module state, the renderer's choice of view, and the scheduler *)

(** [lastUpdateTime] is written on success and never read; it is left out.
    [windData] holds the payload of the last [WIND_DATA], or [null]. *)
Record State : Type := mkState {
  loaded : bool;
  windData : option WindObservation;
  retryCount : Z
}.

(** What [getDom] puts in the wrapper: the translated loading or error
    text, or the two wind blocks built from the stored observation. *)
Inductive Dom : Type :=
| Text (className innerHTML : string)
| WindBlocks (className : string) (observation : WindObservation).

Definition getDom (config : Config) (st : State) : Dom :=
  if negb (loaded st) then Text "dimmed light small" (translate "LOADING")
  else
    match windData st with
    | None => Text "dimmed light small" (translate "ERROR")
    | Some observation => WindBlocks ("small wind-" ++ layout config) observation
    end.

Inductive action : Type :=
| SendGetWindData (provider : string) (lat lon : number) (altitude : Z)
| SetInterval (ms : Z)      (* [setInterval(() => this.getData(), ms)] *)
| SetTimeout (ms : Z)       (* [setTimeout(() => this.getData(), ms)] *)
| UpdateDom (speed : Z)
| LogError (msg : string)
| LogWarn (msg : string).

Definition is_request (a : action) : bool :=
  match a with SendGetWindData _ _ _ _ => true | _ => false end.

Definition is_retry_timer (a : action) : bool :=
  match a with SetTimeout _ => true | _ => false end.

Definition requests (l : list action) : nat := List.length (filter is_request l).
Definition retry_timers (l : list action) : nat := List.length (filter is_retry_timer l).

Definition getData (config : Config) (st : State) : list action :=
  if (retryCount st >=? maxRetries config)%Z
  then [LogError "Maximum retry attempts reached"]
  else [SendGetWindData (provider config) (lat config) (lon config) (altitude config)].

Definition socketNotificationReceived (config : Config) (notification : string)
  (payload : option WindObservation) (st : State) : State * list action :=
  if String.eqb notification "WIND_DATA" then
    ({| loaded := true; windData := payload; retryCount := 0 |},
     [UpdateDom (animationSpeed config)])
  else if String.eqb notification "WIND_DATA_ERROR" then
    let retryCount' := (retryCount st + 1)%Z in
    ({| loaded := true; windData := None; retryCount := retryCount' |},
     ([LogError "Failed to fetch wind data"]
        ++ (if (retryCount' <? maxRetries config)%Z
            then [SetTimeout (retryDelay config)]
            else [])
        ++ [UpdateDom (animationSpeed config)])%list)
  else (st, []).

Definition validateConfig (config : Config) : Config * list action :=
  let lat' := Math_min (Math_max (lat config) (-90)) 90 in
  let lon' := Math_min (Math_max (lon config) (-180)) 180 in
  let bad_provider :=
    negb (existsb (String.eqb (provider config)) ["smhi"; "yr"]) in
  let bad_language :=
    negb (existsb (String.eqb (language config)) ["en"; "sv"; "da"; "no"; "fi"; "is"]) in
  ({| lat := lat'; lon := lon';
      provider := if bad_provider then "smhi" else provider config;
      updateInterval := updateInterval config;
      animationSpeed := animationSpeed config;
      directionType := directionType config;
      displayType := displayType config;
      iconOnly := iconOnly config;
      language := if bad_language then "en" else language config;
      layout := layout config;
      altitude := altitude config;
      retryDelay := retryDelay config;
      maxRetries := maxRetries config |},
   ((if bad_provider then [LogWarn "Invalid provider specified, defaulting to SMHI"] else [])
      ++ (if bad_language then [LogWarn "Invalid language specified, defaulting to English"] else []))%list).

Definition scheduleUpdate (config : Config) (st : State) : list action :=
  (getData config st ++ [SetInterval (updateInterval config)])%list.

Definition start (config : Config) : Config * State * list action :=
  let st := {| loaded := false; windData := None; retryCount := 0 |} in
  let '(config', warnings) := validateConfig config in
  (config', st, (warnings ++ scheduleUpdate config' st)%list).

(** *** The module in its environment

    What is outstanding besides the module's own state: the requests sent to
    the helper and not yet answered by a notification, the retry timers
    armed and not yet fired, and whether the interval timer is set.  Nothing
    in the source ties the timers to the outstanding requests, and nothing
    ties a notification to a request: the handler takes whatever arrives
    (the helper answers a timed-out request twice, see [Helper.signals]).  So
    a timer that is set may fire at any time, and a notification may arrive
    at any time. *)
Record World : Type := mkWorld {
  module_state : State;
  in_flight : nat;
  retry_pending : nat;
  interval_set : bool
}.

Inductive event : Type :=
| Tick                                          (* the interval timer fires *)
| RetryFires                                    (* a retry timer fires *)
| Reply (notification : string) (payload : option WindObservation).

Definition absorb (w : World) (st : State) (acts : list action) : World :=
  {| module_state := st;
     in_flight := in_flight w + requests acts;
     retry_pending := retry_pending w + retry_timers acts;
     interval_set := interval_set w || existsb (fun a => match a with SetInterval _ => true | _ => false end) acts |}.

Definition boot (config : Config) : Config * World :=
  let '(config', st, acts) := start config in
  (config', absorb {| module_state := st; in_flight := 0; retry_pending := 0; interval_set := false |} st acts).

(** One event; [None] when the event is not enabled (the timer is not set).
    A notification counts against the outstanding requests as far as there
    are any. *)
Definition step (config : Config) (w : World) (e : event) : option World :=
  match e with
  | Tick =>
      if interval_set w
      then Some (absorb w (module_state w) (getData config (module_state w)))
      else None
  | RetryFires =>
      match retry_pending w with
      | O => None
      | S n =>
          Some (absorb {| module_state := module_state w; in_flight := in_flight w;
                          retry_pending := n; interval_set := interval_set w |}
                       (module_state w) (getData config (module_state w)))
      end
  | Reply notification payload =>
      let '(st, acts) :=
        socketNotificationReceived config notification payload (module_state w) in
      Some (absorb {| module_state := module_state w;
                      in_flight := Nat.pred (in_flight w);
                      retry_pending := retry_pending w; interval_set := interval_set w |}
                   st acts)
  end.

(** A run of events from a world; [None] when an event is not enabled. *)
Fixpoint run (config : Config) (w : World) (events : list event)
  : option World :=
  match events with
  | [] => Some w
  | e :: rest =>
      match step config w e with
      | None => None
      | Some w' => run config w' rest
      end
  end.

(** The worlds a run passes through, the first one included. *)
Fixpoint visits (config : Config) (w : World) (events : list event)
  : list World :=
  w :: match events with
       | [] => []
       | e :: rest =>
           match step config w e with
           | None => []
           | Some w' => visits config w' rest
           end
       end.

(** The worlds the module can be in: those a run from [start] ends in. *)
Definition reachable (config : Config) (w : World) : Prop :=
  exists events, run (fst (boot config)) (snd (boot config)) events = Some w.

(** At most one request outstanding in every world of a run. *)
Definition single_flight (config : Config) (w : World) (events : list event)
  : Prop :=
  Forall (fun v => (in_flight v <= 1)%nat) (visits config w events).

(** Every notification of a run arrives while a request is outstanding: with
    [single_flight], each request is answered by one notification at
    most. *)
Fixpoint answers_requests (config : Config) (w : World) (events : list event)
  : Prop :=
  match events with
  | [] => True
  | e :: rest =>
      match e with
      | Reply _ _ => (1 <= in_flight w)%nat
      | _ => True
      end
      /\ match step config w e with
         | Some w' => answers_requests config w' rest
         | None => True
         end
  end.

(** The invariant of the runs with one request at a time: the count is
    within the bound, and strictly below it while a request is
    outstanding. *)
Definition within_bound (config : Config) (w : World) : Prop :=
  (0 <= retryCount (module_state w))%Z
  /\ (retryCount (module_state w) <= maxRetries config)%Z
  /\ ((1 <= in_flight w)%nat ->
      (retryCount (module_state w) < maxRetries config)%Z).

(** The retry bound and the periodic refresh as the specification states
    them, over every reachable world. *)
Definition retry_count_bounded : Prop :=
  forall config w,
    (0 <= maxRetries config)%Z ->
    reachable config w ->
    (retryCount (module_state w) <= maxRetries config)%Z.

Definition tick_always_acquires : Prop :=
  forall config w,
    reachable config w ->
    requests (getData (fst (boot config)) (module_state w)) = 1%nat.

(** Three failed acquisitions in a row from the start, each retried. *)
Definition three_failures : list event :=
  [Reply "WIND_DATA_ERROR" None; RetryFires;
   Reply "WIND_DATA_ERROR" None; RetryFires;
   Reply "WIND_DATA_ERROR" None].

(** A failure, then the interval timer fires before the retry timer does:
    two requests end up outstanding at once, twice over. *)
Definition overlapping_failures : list event :=
  [Reply "WIND_DATA_ERROR" None; Tick;
   Reply "WIND_DATA_ERROR" None; RetryFires; RetryFires;
   Reply "WIND_DATA_ERROR" None; Reply "WIND_DATA_ERROR" None].

(** Every request times out, so that the helper answers it twice; one of
    the two retry timers that the first request arms fires after both
    notifications, the other when the count has passed the bound. *)
Definition timeouts_only : list event :=
  [Reply "WIND_DATA_ERROR" None; Reply "WIND_DATA_ERROR" None; RetryFires;
   Reply "WIND_DATA_ERROR" None; Reply "WIND_DATA_ERROR" None; RetryFires].

End Host.

(** *** The icon classifiers for the speed *)

(** The template literal prints the force, an integer from 0 to 12, in
    decimal digits. *)
Definition getBeaufortIcon (speed : Q) : result string :=
  force <- getBeaufortForce speed ;;
  Ok ("wi-wind-beaufort-" ++ Helper.decimal_digits force).

Definition getWindIcon (config : Config) (speed : Q) : result string :=
  if String.eqb (displayType config) "beaufort" then getBeaufortIcon speed
  else if leb speed 0.2 then Ok "wi-cloud"
  else if leb speed 3.3 then Ok "wi-windy"
  else if leb speed 13.8 then Ok "wi-strong-wind"
  else if leb speed 24.4 then Ok "wi-gale-warning"
  else if leb speed 32.6 then Ok "wi-storm-warning"
  else Ok "wi-hurricane-warning".

(** The standard icon read off the Beaufort force. *)
Definition icon_of_force (force : Z) : string :=
  if (force <=? 0)%Z then "wi-cloud"
  else if (force <=? 2)%Z then "wi-windy"
  else if (force <=? 6)%Z then "wi-strong-wind"
  else if (force <=? 9)%Z then "wi-gale-warning"
  else if (force <=? 11)%Z then "wi-storm-warning"
  else "wi-hurricane-warning".

Definition getTranslations : list (string * string) := [
  ("en", "translations/en.json");
  ("sv", "translations/sv.json");
  ("da", "translations/da.json");
  ("no", "translations/no.json");
  ("fi", "translations/fi.json");
  ("is", "translations/is.json")
].

(** The neighbour of an octant on the side of the smaller angles. *)
Definition previous (o : octant) : octant :=
  match o with
  | North => NorthWest
  | NorthEast => North
  | East => NorthEast
  | SouthEast => East
  | South => SouthEast
  | SouthWest => South
  | West => SouthWest
  | NorthWest => West
  end.

(** The eight boundaries between octants. *)
Definition boundaries : list Q :=
  [22.5; 67.5; 112.5; 157.5; 202.5; 247.5; 292.5; 337.5].

(** A direction whose normalized value is one of the boundaries. *)
Definition on_boundary (n : Q) : bool := existsb (Qeq_bool n) boundaries.

(** A configuration that [validateConfig] has nothing to correct in. *)
Definition within (lo hi : Q) (x : number) : Prop :=
  match x with
  | Num q => lo <= q /\ q <= hi
  | _ => False
  end.

Definition valid (c : Config) : Prop :=
  within (-90) 90 (lat c)
  /\ within (-180) 180 (lon c)
  /\ In (provider c) ["smhi"; "yr"]
  /\ In (language c) (map fst getTranslations).

(** The default configuration with the Beaufort display. *)
Definition beaufort_defaults : Config := {|
  lat := Num 57.7089;
  lon := Num 11.9746;
  provider := "smhi";
  updateInterval := 30 * 60 * 1000;
  animationSpeed := 1000;
  directionType := "compass";
  displayType := "beaufort";
  iconOnly := false;
  language := "en";
  layout := "vertical";
  altitude := 0;
  retryDelay := 2000;
  maxRetries := 3
|}.

Section Display.

Variable translate : string -> string.
Variable Number_toString : Q -> string.

(** The [switch] of [getDom] on the display type: the text shown for the
    speed. *)
Definition speedValue (config : Config) (speed : Q) : result string :=
  if String.eqb (displayType config) "textsea" then Ok (getTextSea translate speed)
  else if String.eqb (displayType config) "beaufort" then
    force <- getBeaufortForce speed ;;
    Ok (Helper.decimal_digits force ++ " " ++ translate "BEAUFORT")
  else Ok (Number_toString speed ++ " " ++ translate "MS").

End Display.

(** *** Runs and the replies in them *)

(** The retry count a run of events leads to from the count [r]: a success
    resets it, a failure adds one, nothing else touches it. *)
Definition is_success (e : event) : bool :=
  match e with
  | Reply notification _ => String.eqb notification "WIND_DATA"
  | _ => false
  end.

Definition is_failure (e : event) : bool :=
  match e with
  | Reply notification _ => String.eqb notification "WIND_DATA_ERROR"
  | _ => false
  end.

(** The failures of a run after its last success, the run given with its
    last event first. *)
Fixpoint failures_since_success (reversed : list event) : nat :=
  match reversed with
  | [] => 0
  | e :: earlier =>
      if is_success e then 0
      else if is_failure e then S (failures_since_success earlier)
      else failures_since_success earlier
  end.

(** A reply that the module handles. *)
Definition is_reply_handled (e : event) : bool := is_success e || is_failure e.

(** The module has given up: the count is at the bound, no request is
    outstanding and no retry timer is armed. *)
Definition gave_up (config : Config) (w : World) : Prop :=
  (maxRetries config <= retryCount (module_state w))%Z
  /\ in_flight w = 0%nat
  /\ retry_pending w = 0%nat.

End Wind.

(** ** The module and the helper over the socket *)

Module Socket.

Section Runtime.

Variable Number_toString : Q -> string.
Variable JSON_parse : string -> result value.

(** The module receives the notifications of the helper, in order. *)
Fixpoint deliver (config : Wind.Config)
  (notifications : list (string * option WindObservation)) (st : Wind.State)
  : Wind.State :=
  match notifications with
  | [] => st
  | (notification, payload) :: rest =>
      deliver config rest
        (fst (Wind.socketNotificationReceived config notification payload st))
  end.

(** One request under way: the helper handles [GET_WIND_DATA] with the
    payload [request], its exchange with the provider goes as [x], and the
    notifications of the helper come back to the module, in order. *)
Definition answer (config : Wind.Config) (request : Helper.RequestConfig)
  (x : Helper.exchange) (st : Wind.State) : Wind.State :=
  deliver config
    (Helper.sent
       (Helper.socketNotificationReceived Number_toString JSON_parse
          "GET_WIND_DATA" request x))
    st.

End Runtime.

End Socket.

(** * The shape of a formatted coordinate *)

Definition is_digit (c : ascii) : bool :=
  (48 <=? nat_of_ascii c)%nat && (nat_of_ascii c <=? 57)%nat.

Fixpoint all_digits (s : string) : bool :=
  match s with
  | EmptyString => true
  | String c rest => is_digit c && all_digits rest
  end.

(** An optional minus sign, at least one digit, a point, and exactly six
    digits after it. *)
Definition six_decimals (s : string) : Prop :=
  exists sign integral fraction,
    s = sign ++ integral ++ "." ++ fraction
    /\ (sign = "" \/ sign = "-")
    /\ integral <> ""
    /\ all_digits integral = true
    /\ all_digits fraction = true
    /\ String.length fraction = 6%nat.

(** The notification the helper sends for the result of a parser. *)
Definition notify (r : result WindObservation) : string * option WindObservation :=
  match r with
  | Ok windData => ("WIND_DATA", Some windData)
  | Throw _ => ("WIND_DATA_ERROR", None)
  end.

(** The number a string of decimal digits denotes. *)
Definition digit_value (c : ascii) : Z := Z.of_nat (nat_of_ascii c) - 48.

Fixpoint digits_value_from (acc : Z) (s : string) : Z :=
  match s with
  | EmptyString => acc
  | String c rest => digits_value_from (10 * acc + digit_value c) rest
  end.

Definition digits_value (s : string) : Z := digits_value_from 0 s.

(** * Example documents *)

(** A YR document whose detail block is present and holds neither wind
    field. *)
Definition yr_without_wind : value :=
  VObj [("properties",
         VObj [("timeseries",
                VArr [VObj [("data",
                             VObj [("instant",
                                    VObj [("details",
                                           VObj [("air_temperature", VNum 5)])])])]])])].

(** The same shape for SMHI: a parameter sequence with neither wind
    parameter. *)
Definition smhi_without_wind : value :=
  VObj [("timeSeries",
         VArr [VObj [("parameters",
                      VArr [VObj [("name", VStr "t");
                                  ("values", VArr [VNum 5])]])]])].

(** The request the module sends with its default configuration. *)
Definition default_request : Helper.RequestConfig :=
  Helper.mkRequest "smhi" 57.7089 11.9746 0.

(** The well-formed SMHI response of the specification. *)
Definition ws_example : value :=
  VObj [("name", VStr "ws"); ("values", VArr [VNum 7.5; VNum 8])].

Definition wd_example : value :=
  VObj [("name", VStr "wd"); ("values", VArr [VNum 180; VNum 190])].

Definition smhi_example : value :=
  VObj [("timeSeries",
         VArr [VObj [("parameters", VArr [ws_example; wd_example])]])].

(** The same response without its ["wd"] parameter. *)
Definition smhi_without_wd : value :=
  VObj [("timeSeries",
         VArr [VObj [("parameters",
                      VArr [VObj [("name", VStr "ws");
                                  ("values", VArr [VNum 7.5; VNum 8])]])]])].

(** The well-formed response with a [null] entry before its two
    parameters. *)
Definition smhi_null_entry : value :=
  VObj [("timeSeries",
         VArr [VObj [("parameters", VArr [VNull; ws_example; wd_example])]])].

(** The well-formed response with, before its two parameters, a parameter
    named ["ws"] whose first value is a word. *)
Definition smhi_second_ws : value :=
  VObj [("timeSeries",
         VArr [VObj [("parameters",
                      VArr [VObj [("name", VStr "ws");
                                  ("values", VArr [VStr "calm"])];
                            ws_example; wd_example])]])].

(** * Properties *)

(** ** Exceptions *)

Lemma throws_Throw {A : Type} (e : exn) : throws (@Throw A e).
Proof. exists e; reflexivity. Qed.

Lemma throws_bind {A B : Type} (r : result A) (k : A -> result B) :
  throws r -> throws (bind r k).
Proof. intros [e ->]; exists e; reflexivity. Qed.

Lemma bind_Ok {A B : Type} (a : A) (k : A -> result B) : bind (Ok a) k = k a.
Proof. reflexivity. Qed.

Create HintDb js.
#[local] Hint Resolve throws_Throw throws_bind : js.

(** ** Optional chains *)

Lemma member_opt (v : value) (k : string) :
  nullish v = false -> member v k = Ok (v ?. k).
Proof. unfold member, opt_member; intros ->; reflexivity. Qed.

Lemma index0_opt (v : value) :
  nullish v = false -> index0 v = Ok (v ?.[0]).
Proof. unfold index0, opt_index0; intros ->; reflexivity. Qed.

Lemma truthy_not_nullish (v : value) : truthy v = true -> nullish v = false.
Proof. destruct v; simpl; congruence. Qed.

Lemma opt_member_not_nullish (v : value) (k : string) :
  nullish (v ?. k) = false -> nullish v = false.
Proof. unfold opt_member; destruct (nullish v); simpl; congruence. Qed.

Lemma opt_index0_not_nullish (v : value) :
  nullish (v ?.[0]) = false -> nullish v = false.
Proof. unfold opt_index0; destruct (nullish v); simpl; congruence. Qed.

(** ** The YR parser *)

(** When the guard passes, the plain accesses read what the optional chain
    read, and the two fields are taken from the detail block unchecked. *)
Lemma parseYrData_truthy (data : value) :
  truthy (yr_details data) = true ->
  parseYrData data =
    Ok {| windSpeed := get_prop (yr_details data) "wind_speed";
          windDirection := get_prop (yr_details data) "wind_from_direction" |}.
Proof.
  intros H. unfold parseYrData. rewrite H. simpl negb. cbv iota.
  pose proof (truthy_not_nullish _ H) as N6.
  unfold yr_details in *.
  pose proof (opt_member_not_nullish _ _ N6) as N5.
  pose proof (opt_member_not_nullish _ _ N5) as N4.
  pose proof (opt_member_not_nullish _ _ N4) as N3.
  pose proof (opt_index0_not_nullish _ N3) as N2.
  pose proof (opt_member_not_nullish _ _ N2) as N1.
  pose proof (opt_member_not_nullish _ _ N1) as N0.
  rewrite (member_opt _ _ N0), bind_Ok.
  rewrite (member_opt _ _ N1), bind_Ok.
  rewrite (index0_opt _ N2), bind_Ok.
  rewrite (member_opt _ _ N3), bind_Ok.
  rewrite (member_opt _ _ N4), bind_Ok.
  rewrite (member_opt _ _ N5), bind_Ok.
  unfold member. rewrite N6. reflexivity.
Qed.

Lemma parseYrData_falsy (data : value) :
  truthy (yr_details data) = false ->
  parseYrData data = Throw (Error "Invalid YR data structure").
Proof. intros H. unfold parseYrData. rewrite H. reflexivity. Qed.

(** The helper on a response whose body is read to the end. *)
Lemma getWindData_response
  (Number_toString : Q -> string) (JSON_parse : string -> result value)
  (config : Helper.RequestConfig) (statusCode : Z) (rawData : string) :
  Helper.getWindData Number_toString JSON_parse config
    (Helper.Response statusCode rawData)
  = Helper.HttpsGet (Helper.getProviderUrl Number_toString config) 10000 ::
    (if negb (statusCode =? 200)%Z
     then [Helper.Resume; Helper.SendSocketNotification "WIND_DATA_ERROR" None]
     else Helper.on_end JSON_parse
            (if String.eqb (Helper.provider config) ""
             then "smhi" else Helper.provider config)
            rawData).
Proof.
  unfold Helper.getWindData, Helper.getWindData_on.
  cbn [Helper.signals Helper.listeners Helper.react].
  destruct (statusCode =? 200)%Z;
    cbn [negb Helper.listeners Helper.react Helper.listening Helper.rawData
         app String.append];
    rewrite ?app_nil_r; reflexivity.
Qed.

(** C2, evaluated on the code.  The specification has a YR document whose
    detail block lacks the wind fields refused.  [parseYrData] accepts
    [yr_without_wind] and returns an observation with both fields
    [undefined]; the helper then sends it as [WIND_DATA].  The SMHI parser
    refuses the corresponding document, and [parseYrData] never checks more
    than the truthiness of the detail block. *)
Theorem parseYrData_partial_observation :
  parseYrData yr_without_wind
    = Ok {| windSpeed := VUndefined; windDirection := VUndefined |}
  /\ (forall o, parseYrData yr_without_wind = Ok o -> fully_populated o = false)
  /\ (forall Number_toString config,
        Helper.provider config = "yr" ->
        Helper.sent
          (Helper.getWindData Number_toString (fun _ => Ok yr_without_wind)
             config (Helper.Response 200 "{}"))
        = [("WIND_DATA",
            Some {| windSpeed := VUndefined; windDirection := VUndefined |})])
  /\ parseSmhiData smhi_without_wind = Throw (Error "Missing wind parameters")
  /\ (forall data,
        parseYrData data =
          if truthy (yr_details data)
          then Ok {| windSpeed := get_prop (yr_details data) "wind_speed";
                     windDirection := get_prop (yr_details data) "wind_from_direction" |}
          else Throw (Error "Invalid YR data structure")).
Proof.
  split; [reflexivity|].
  split; [intros o H; vm_compute in H; injection H as <-; reflexivity|].
  split.
  { intros nts config Hp. rewrite getWindData_response. unfold Helper.on_end.
    rewrite Hp. reflexivity. }
  split; [reflexivity|].
  intros data. destruct (truthy (yr_details data)) eqn:H.
  - apply parseYrData_truthy; exact H.
  - apply parseYrData_falsy; exact H.
Qed.

(** ** The SMHI parser *)

Lemma name_is_eq (n : string) (p : value) :
  nullish p = false -> name_is n p = Ok (is_named n p).
Proof. intros H. unfold name_is, member, is_named. rewrite H. reflexivity. Qed.

Lemma is_named_not_nullish (n : string) (p : value) :
  is_named n p = true -> nullish p = false.
Proof. unfold is_named; destruct p; simpl; congruence. Qed.

Lemma find_with_first_named (n : string) (ps : list value) (p : value) :
  first_named n ps p -> find_with (name_is n) ps = Ok p.
Proof.
  intros (before & after & -> & Hp & Hb).
  induction Hb as [|q before [Hq1 Hq2] _ IH]; simpl.
  - rewrite (name_is_eq _ _ (is_named_not_nullish _ _ Hp)), Hp. reflexivity.
  - rewrite (name_is_eq _ _ Hq1), Hq2. simpl. exact IH.
Qed.

(** Without an entry named [n], [find] returns [undefined], unless the
    callback raised on a [null] entry. *)
Lemma find_with_missing (n : string) (ps : list value) :
  has_named n ps = false ->
  find_with (name_is n) ps = Ok VUndefined \/ throws (find_with (name_is n) ps).
Proof.
  unfold has_named. induction ps as [|q ps IH]; simpl; intros H.
  - left; reflexivity.
  - apply orb_false_iff in H as [Hq Hps].
    destruct (nullish q) eqn:Nq.
    + right. unfold name_is, member. rewrite Nq. simpl. auto with js.
    + rewrite (name_is_eq _ _ Nq), Hq. simpl. auto.
Qed.

(** What [find] returns is [undefined] or an entry with the name. *)
Lemma find_with_found (n : string) (ps : list value) (p : value) :
  find_with (name_is n) ps = Ok p ->
  p = VUndefined \/ first_named n ps p.
Proof.
  induction ps as [|q ps IH]; simpl; intros H.
  - injection H as <-. left; reflexivity.
  - destruct (nullish q) eqn:Nq.
    + unfold name_is, member in H. rewrite Nq in H. discriminate.
    + rewrite (name_is_eq _ _ Nq) in H. simpl in H.
      destruct (is_named n q) eqn:Hq.
      * injection H as <-. right. exists [], ps. auto.
      * destruct (IH H) as [->|(before & after & -> & Hp & Hb)]; [left; reflexivity|].
        right. exists (q :: before), after. repeat split; auto.
Qed.

(** When the guard passes, the plain accesses read what the optional chain
    read. *)
Lemma parseSmhiData_truthy (data : value) :
  truthy (smhi_parameters data) = true ->
  parseSmhiData data =
    (windSpeed <- smhi_first_value (smhi_parameters data) "ws" ;;
     windDirection <- smhi_first_value (smhi_parameters data) "wd" ;;
     if negb (is_number windSpeed) || negb (is_number windDirection)
     then Throw (Error "Missing wind parameters")
     else Ok {| windSpeed := windSpeed; windDirection := windDirection |}).
Proof.
  intros H. unfold parseSmhiData. rewrite H. simpl negb. cbv iota.
  pose proof (truthy_not_nullish _ H) as N3.
  unfold smhi_parameters in *.
  pose proof (opt_member_not_nullish _ _ N3) as N2.
  pose proof (opt_index0_not_nullish _ N2) as N1.
  pose proof (opt_member_not_nullish _ _ N1) as N0.
  rewrite (member_opt _ _ N0), bind_Ok.
  rewrite (index0_opt _ N1), bind_Ok.
  rewrite (member_opt _ _ N2), bind_Ok.
  reflexivity.
Qed.

Lemma parseSmhiData_falsy (data : value) :
  truthy (smhi_parameters data) = false ->
  parseSmhiData data = Throw (Error "Invalid SMHI data structure").
Proof. intros H. unfold parseSmhiData. rewrite H. reflexivity. Qed.

Lemma smhi_first_value_located (ps : list value) (n : string) (p : value) :
  first_named n ps p ->
  smhi_first_value (VArr ps) n = Ok (first_value p).
Proof.
  intros H. unfold smhi_first_value, array_find.
  rewrite (find_with_first_named _ _ _ H). reflexivity.
Qed.

Lemma smhi_first_value_missing (ps : list value) (n : string) :
  has_named n ps = false ->
  smhi_first_value (VArr ps) n = Ok VUndefined
  \/ throws (smhi_first_value (VArr ps) n).
Proof.
  intros H. unfold smhi_first_value, array_find.
  destruct (find_with_missing _ _ H) as [-> | T]; [left; reflexivity|].
  right. auto with js.
Qed.

(** The parser succeeds exactly on located, numeric first values. *)
Lemma parseSmhiData_Ok_inv (data : value) (o : WindObservation) :
  parseSmhiData data = Ok o ->
  exists ps pw pd s d,
    smhi_parameters data = VArr ps
    /\ first_named "ws" ps pw /\ first_value pw = VNum s
    /\ first_named "wd" ps pd /\ first_value pd = VNum d
    /\ o = {| windSpeed := VNum s; windDirection := VNum d |}.
Proof.
  intros H.
  destruct (truthy (smhi_parameters data)) eqn:T;
    [|rewrite (parseSmhiData_falsy _ T) in H; discriminate].
  rewrite (parseSmhiData_truthy _ T) in H.
  destruct (smhi_parameters data) as [| | | | |ps|]; try discriminate H.
  unfold smhi_first_value, array_find in H.
  destruct (find_with (name_is "ws") ps) as [pw|] eqn:Fw; [|discriminate H].
  rewrite bind_Ok in H.
  destruct (find_with (name_is "wd") ps) as [pd|] eqn:Fd; [|discriminate H].
  rewrite !bind_Ok in H.
  fold (first_value pw) in H. fold (first_value pd) in H.
  destruct (first_value pw) as [| | |s| | |] eqn:Vw; try discriminate H.
  destruct (first_value pd) as [| | |d| | |] eqn:Vd; try discriminate H.
  simpl in H. injection H as <-.
  destruct (find_with_found _ _ _ Fw) as [->|Lw]; [discriminate Vw|].
  destruct (find_with_found _ _ _ Fd) as [->|Ld]; [discriminate Vd|].
  exists ps, pw, pd, s, d. auto 10.
Qed.

Lemma parseSmhiData_bad_speed (data : value) :
  (forall v, smhi_first_value (smhi_parameters data) "ws" = Ok v ->
             is_number v = false) ->
  throws (parseSmhiData data).
Proof.
  intros H.
  destruct (truthy (smhi_parameters data)) eqn:T;
    [|rewrite (parseSmhiData_falsy _ T); auto with js].
  rewrite (parseSmhiData_truthy _ T).
  destruct (smhi_first_value (smhi_parameters data) "ws") as [v|e];
    [|auto with js].
  rewrite bind_Ok, (H v eq_refl).
  destruct (smhi_first_value (smhi_parameters data) "wd"); simpl; auto with js.
Qed.

Lemma parseSmhiData_bad_direction (data : value) :
  (forall v, smhi_first_value (smhi_parameters data) "wd" = Ok v ->
             is_number v = false) ->
  throws (parseSmhiData data).
Proof.
  intros H.
  destruct (truthy (smhi_parameters data)) eqn:T;
    [|rewrite (parseSmhiData_falsy _ T); auto with js].
  rewrite (parseSmhiData_truthy _ T).
  destruct (smhi_first_value (smhi_parameters data) "ws") as [v|e];
    [|auto with js].
  rewrite bind_Ok.
  destruct (smhi_first_value (smhi_parameters data) "wd") as [w|e];
    [|auto with js].
  rewrite bind_Ok, (H w eq_refl), orb_true_r. auto with js.
Qed.

Lemma parseSmhiData_bad (data : value) (n : string) :
  n = "ws" \/ n = "wd" ->
  (forall v, smhi_first_value (smhi_parameters data) n = Ok v ->
             is_number v = false) ->
  throws (parseSmhiData data).
Proof.
  intros [-> | ->]; [apply parseSmhiData_bad_speed | apply parseSmhiData_bad_direction].
Qed.

(** C8, refuted as stated: the parameter sequence [null, ws, wd] contains
    the two parameters, with the numbers 7.5 and 180 as first values, and
    the parser throws on it: the callback of [find] reads [name] of the
    [null] entry before it reaches them.  The parser throws as well when
    the two parameters come after another parameter named ["ws"] whose
    first value is not a number: [find] stops at the first entry of the
    name. *)
Lemma parseSmhiData_null_entry :
  smhi_parameters smhi_null_entry = VArr [VNull; ws_example; wd_example]
  /\ has_named "ws" [VNull; ws_example; wd_example] = true
  /\ has_named "wd" [VNull; ws_example; wd_example] = true
  /\ first_value ws_example = VNum 7.5
  /\ first_value wd_example = VNum 180
  /\ parseSmhiData smhi_null_entry
     = Throw (TypeError "Cannot read properties of null or undefined")
  /\ (exists other,
        smhi_parameters smhi_second_ws = VArr [other; ws_example; wd_example])
  /\ parseSmhiData smhi_second_ws = Throw (Error "Missing wind parameters")
  /\ ~ parses_named_parameters.
Proof.
  split; [reflexivity|]. split; [reflexivity|]. split; [reflexivity|].
  split; [reflexivity|]. split; [reflexivity|]. split; [reflexivity|].
  split; [eexists; reflexivity|]. split; [reflexivity|].
  intros H.
  specialize (H smhi_null_entry [VNull; ws_example; wd_example]
                ws_example wd_example 7.5 180 eq_refl
                (or_intror (or_introl eq_refl)) eq_refl eq_refl
                (or_intror (or_intror (or_introl eq_refl))) eq_refl eq_refl).
  discriminate H.
Qed.

(** C8, amended.  An SMHI document in whose parameter sequence the first
    entry named ["ws"] and the first entry named ["wd"] have a number as
    first value, no entry before either of them being [null], parses to
    exactly those two numbers (so does the example of the specification); a
    document whose time series is empty, whose parameter sequence is absent,
    which lacks one of the two parameters, or whose first value so located
    is not a number, makes the parser throw; and the parser succeeds on no
    other document. *)
Theorem parseSmhiData_spec :
  (forall data ps pw pd s d,
      smhi_parameters data = VArr ps ->
      first_named "ws" ps pw -> first_value pw = VNum s ->
      first_named "wd" ps pd -> first_value pd = VNum d ->
      parseSmhiData data = Ok {| windSpeed := VNum s; windDirection := VNum d |})
  /\ parseSmhiData smhi_example
     = Ok {| windSpeed := VNum 7.5; windDirection := VNum 180 |}
  /\ (forall data, data ?. "timeSeries" = VArr [] -> throws (parseSmhiData data))
  /\ (forall data, smhi_parameters data = VUndefined -> throws (parseSmhiData data))
  /\ (forall data ps,
        smhi_parameters data = VArr ps ->
        has_named "ws" ps = false \/ has_named "wd" ps = false ->
        throws (parseSmhiData data))
  /\ (forall data ps n p,
        smhi_parameters data = VArr ps ->
        n = "ws" \/ n = "wd" ->
        first_named n ps p -> is_number (first_value p) = false ->
        throws (parseSmhiData data))
  /\ throws (parseSmhiData smhi_without_wd)
  /\ (forall data o,
        parseSmhiData data = Ok o ->
        exists ps pw pd s d,
          smhi_parameters data = VArr ps
          /\ first_named "ws" ps pw /\ first_value pw = VNum s
          /\ first_named "wd" ps pd /\ first_value pd = VNum d
          /\ o = {| windSpeed := VNum s; windDirection := VNum d |}).
Proof.
  split.
  { intros data ps pw pd s d P Lw Vw Ld Vd.
    rewrite parseSmhiData_truthy by (rewrite P; reflexivity).
    rewrite P, (smhi_first_value_located _ _ _ Lw), bind_Ok.
    rewrite (smhi_first_value_located _ _ _ Ld), bind_Ok.
    rewrite Vw, Vd. reflexivity. }
  split; [reflexivity|].
  split.
  { intros data H. rewrite parseSmhiData_falsy; auto with js.
    unfold smhi_parameters. rewrite H. reflexivity. }
  split.
  { intros data H. rewrite parseSmhiData_falsy; auto with js.
    rewrite H. reflexivity. }
  split.
  { intros data ps P [H|H].
    - apply parseSmhiData_bad_speed. rewrite P. intros v Hv.
      destruct (smhi_first_value_missing _ _ H) as [E|[e E]];
        rewrite E in Hv; [injection Hv as <-; reflexivity|discriminate].
    - apply parseSmhiData_bad_direction. rewrite P. intros v Hv.
      destruct (smhi_first_value_missing _ _ H) as [E|[e E]];
        rewrite E in Hv; [injection Hv as <-; reflexivity|discriminate]. }
  split.
  { intros data ps n p P Hn L V.
    apply (parseSmhiData_bad data n Hn). rewrite P. intros v Hv.
    rewrite (smhi_first_value_located _ _ _ L) in Hv. injection Hv as <-. exact V. }
  split; [exists (Error "Missing wind parameters"); reflexivity|].
  exact parseSmhiData_Ok_inv.
Qed.

(** The success case of C8, amended, on the example of the specification. *)
Lemma parseSmhiData_spec_witness :
  smhi_parameters smhi_example = VArr [ws_example; wd_example]
  /\ first_named "ws" [ws_example; wd_example] ws_example
  /\ first_value ws_example = VNum 7.5
  /\ first_named "wd" [ws_example; wd_example] wd_example
  /\ first_value wd_example = VNum 180
  /\ parseSmhiData smhi_example
     = Ok {| windSpeed := VNum 7.5; windDirection := VNum 180 |}.
Proof.
  assert (Lw : first_named "ws" [ws_example; wd_example] ws_example).
  { exists [], [wd_example]. split; [reflexivity|]. split; [reflexivity|constructor]. }
  assert (Ld : first_named "wd" [ws_example; wd_example] wd_example).
  { exists [ws_example], []. split; [reflexivity|]. split; [reflexivity|].
    constructor; [split; reflexivity|constructor]. }
  split; [reflexivity|]. split; [exact Lw|]. split; [reflexivity|].
  split; [exact Ld|]. split; [reflexivity|].
  exact (proj1 parseSmhiData_spec smhi_example [ws_example; wd_example]
           ws_example wd_example 7.5 180 eq_refl Lw eq_refl Ld eq_refl).
Defined.

(** ** The Beaufort classifier *)

Import Wind.

Lemma Qle_bool_true (a b : Q) : a <= b -> Qle_bool a b = true.
Proof. apply Qle_bool_iff. Qed.

Lemma Qle_bool_false (a b : Q) : b < a -> Qle_bool a b = false.
Proof.
  intros H. destruct (Qle_bool a b) eqn:E; [|reflexivity].
  apply Qle_bool_iff in E. lra.
Qed.

(** The scan of the source's table is the scan of the ceilings. *)
Lemma getBeaufortForce_first_bucket (s : Q) :
  getBeaufortForce s = Ok (classifyBeaufort s).
Proof.
  unfold getBeaufortForce, classifyBeaufort, beaufortScale, beaufort_ceilings.
  cbn [find first_bucket le_ceiling max force]. unfold leb.
  repeat (match goal with
          | |- context [Qle_bool s ?c] => destruct (Qle_bool s c); [reflexivity|]
          end).
  reflexivity.
Qed.

(** The first ceiling that [s] satisfies decides the scan. *)
Lemma first_bucket_nth (s : Q) (cs : list Q) :
  forall (k0 : Z) (k : nat) (c : Q),
    nth_error cs k = Some c ->
    s <= c ->
    (forall j c', (j < k)%nat -> nth_error cs j = Some c' -> c' < s) ->
    first_bucket s cs k0 = (k0 + Z.of_nat k)%Z.
Proof.
  induction cs as [|c0 cs IH]; intros k0 k c Hk Hc Hlow.
  - destruct k; discriminate.
  - destruct k as [|k]; simpl in Hk.
    + injection Hk as ->. simpl. rewrite (Qle_bool_true _ _ Hc). lia.
    + simpl. rewrite (Qle_bool_false s c0) by (apply (Hlow O); [lia|reflexivity]).
      rewrite (IH (k0 + 1)%Z k c Hk Hc); [lia|].
      intros j c' Hj Hn. apply (Hlow (S j)); [lia|exact Hn].
Qed.

Lemma first_bucket_above (s : Q) (cs : list Q) :
  forall k0 : Z,
    Forall (fun c => c < s) cs ->
    first_bucket s cs k0 = (k0 + Z.of_nat (List.length cs))%Z.
Proof.
  induction cs as [|c0 cs IH]; intros k0 H; simpl.
  - lia.
  - inversion H as [|? ? H0 H1]; subst.
    rewrite (Qle_bool_false _ _ H0), (IH (k0 + 1)%Z H1). lia.
Qed.

Lemma beaufort_ceilings_bounded :
  Forall (fun c => c <= 32.6) beaufort_ceilings.
Proof. unfold beaufort_ceilings. repeat constructor; lra. Qed.

(** C4.  For a speed [s >= 0] the classifier returns the force of the first
    ceiling, scanning 0.2, 1.5, ..., 32.6 from the lowest, that [s] is less
    than or equal to (forces 0 to 11), and force 12 when [s] is above 32.6;
    at the boundaries: 0.2 gives 0, 0.3 gives 1, 32.6 gives 11 and 32.7
    gives 12. *)
Theorem getBeaufortForce_spec (s : Q) (Hs : 0 <= s) :
  getBeaufortForce s = Ok (classifyBeaufort s)
  /\ (forall (k : nat) (c : Q),
        nth_error beaufort_ceilings k = Some c ->
        s <= c ->
        (forall j c', (j < k)%nat ->
                      nth_error beaufort_ceilings j = Some c' -> c' < s) ->
        getBeaufortForce s = Ok (Z.of_nat k))
  /\ (32.6 < s -> getBeaufortForce s = Ok 12%Z)
  /\ (List.length beaufort_ceilings = 12%nat
      /\ map force beaufortScale = [0; 1; 2; 3; 4; 5; 6; 7; 8; 9; 10; 11; 12]%Z)
  /\ (getBeaufortForce 0.2 = Ok 0%Z
      /\ getBeaufortForce 0.3 = Ok 1%Z
      /\ getBeaufortForce 32.6 = Ok 11%Z
      /\ getBeaufortForce 32.7 = Ok 12%Z).
Proof.
  split; [apply getBeaufortForce_first_bucket|].
  split.
  { intros k c Hk Hc Hlow. rewrite getBeaufortForce_first_bucket.
    unfold classifyBeaufort.
    rewrite (first_bucket_nth s beaufort_ceilings 0 k c Hk Hc Hlow). reflexivity. }
  split.
  { intros H. rewrite getBeaufortForce_first_bucket. unfold classifyBeaufort.
    rewrite first_bucket_above; [reflexivity|].
    eapply Forall_impl; [|exact beaufort_ceilings_bounded].
    intros c Hc. simpl in Hc. lra. }
  split; [split; reflexivity|].
  repeat split; reflexivity.
Qed.

(** The statement of C4 at the speed 0.3. *)
Lemma getBeaufortForce_spec_witness :
  0 <= 0.3 /\ getBeaufortForce 0.3 = Ok (classifyBeaufort 0.3).
Proof.
  assert (H : 0 <= 0.3) by (unfold Qle; simpl; lia).
  split; [exact H|].
  exact (proj1 (getBeaufortForce_spec 0.3 H)).
Defined.

(** ** The direction classifiers *)

(** Settles every comparison of the goal from the bounds in the context. *)
Ltac settle_comparisons :=
  repeat match goal with
         | |- context [Qle_bool ?a ?b] =>
             first [ rewrite (Qle_bool_true a b) by lra
                   | rewrite (Qle_bool_false a b) by lra ]
         end.

(** Closes a case of the octant analysis with the octant [o]. *)
Ltac octant_case o := settle_comparisons; exists o; split; reflexivity.

Lemma Qeq_bool_zero (p : positive) : Qeq_bool (0 # p) 0 = true.
Proof. reflexivity. Qed.

Lemma append_degree_not_NA (s : string) : s ++ "°" <> "N/A".
Proof. destruct s as [|a [|b [|c [|d s]]]]; simpl; discriminate. Qed.

Lemma Qle_neq_lt (a n : Q) : a <= n -> ~ n == a -> a < n.
Proof.
  intros H N. apply Qle_lteq in H. destruct H as [H|E]; [exact H|].
  symmetry in E. contradiction.
Qed.

(** Off the eight boundaries the two classifiers name the same octant. *)
Lemma text_icon_agree_off_boundary
  (translate : string -> string) (Number_toString : Q -> string)
  (config : Config) (d : Q) :
  directionType config = "compass" ->
  Qeq_bool d 0 = false ->
  Forall (fun b => ~ normalize d == b)
         [22.5; 67.5; 112.5; 157.5; 202.5; 247.5; 292.5; 337.5] ->
  exists o : octant,
    getWindDirection translate Number_toString config d = translate (octant_key o)
    /\ getDirectionIcon d = octant_icon o.
Proof.
  intros Hc Hd Hb.
  unfold getWindDirection, getDirectionIcon. rewrite Hc, Hd. simpl String.eqb. cbv iota.
  generalize dependent (normalize d). intros n Hb.
  repeat match goal with
         | H : Forall _ (_ :: _) |- _ => inversion H; clear H; subst
         end.
  unfold directions. cbn [find]. unfold in_range, leb, ltb, geb, gtb.
  cbn [min dmax dir].
  destruct (Qlt_le_dec n 22.5) as [L1|G1]; [octant_case North|].
  pose proof (Qle_neq_lt _ _ G1 ltac:(assumption)).
  destruct (Qlt_le_dec n 67.5) as [L2|G2]; [octant_case NorthEast|].
  pose proof (Qle_neq_lt _ _ G2 ltac:(assumption)).
  destruct (Qlt_le_dec n 112.5) as [L3|G3]; [octant_case East|].
  pose proof (Qle_neq_lt _ _ G3 ltac:(assumption)).
  destruct (Qlt_le_dec n 157.5) as [L4|G4]; [octant_case SouthEast|].
  pose proof (Qle_neq_lt _ _ G4 ltac:(assumption)).
  destruct (Qlt_le_dec n 202.5) as [L5|G5]; [octant_case South|].
  pose proof (Qle_neq_lt _ _ G5 ltac:(assumption)).
  destruct (Qlt_le_dec n 247.5) as [L6|G6]; [octant_case SouthWest|].
  pose proof (Qle_neq_lt _ _ G6 ltac:(assumption)).
  destruct (Qlt_le_dec n 292.5) as [L7|G7]; [octant_case West|].
  pose proof (Qle_neq_lt _ _ G7 ltac:(assumption)).
  destruct (Qlt_le_dec n 337.5) as [L8|G8]; [octant_case NorthWest|].
  pose proof (Qle_neq_lt _ _ G8 ltac:(assumption)).
  octant_case North.
Qed.

(** C5.  The direction 0, however it is written, is the sentinel: the text
    classifier returns ["N/A"] in every direction mode and the icon
    classifier returns [wi-na].  The direction 360 is not: it is normalized
    to 0, falls in the north row of the table, and gives the translation of
    ["N"] in compass mode and the north icon; in degrees mode it is printed
    as a number of degrees, which is not ["N/A"] either. *)
Theorem direction_zero_is_sentinel_360_is_north
  (translate : string -> string) (Number_toString : Q -> string)
  (config : Config) :
  (forall p, getWindDirection translate Number_toString config (0 # p) = "N/A")
  /\ (forall p, getDirectionIcon (0 # p) = "wi-na")
  /\ normalize 360 == 0
  /\ find (in_range (normalize 360)) directions
       = Some {| min := 337.5; dmax := 22.5; dir := "N" |}
  /\ getWindDirection translate Number_toString
        (set_directionType "compass" config) 360
      = translate (octant_key North)
  /\ getDirectionIcon 360 = octant_icon North
  /\ getDirectionIcon 360 <> "wi-na"
  /\ (String.eqb (directionType config) "compass" = false ->
       getWindDirection translate Number_toString config 360
       = Number_toString 360 ++ "°"
       /\ getWindDirection translate Number_toString config 360 <> "N/A").
Proof.
  split; [intros p; unfold getWindDirection; rewrite Qeq_bool_zero; reflexivity|].
  split; [intros p; unfold getDirectionIcon; rewrite Qeq_bool_zero; reflexivity|].
  split; [reflexivity|].
  split; [reflexivity|].
  split; [reflexivity|].
  split; [reflexivity|].
  split; [discriminate|].
  intros H. unfold getWindDirection. rewrite H.
  split; [reflexivity|]. apply append_degree_not_NA.
Qed.

(** The degrees mode of C5 on the default configuration. *)
Lemma direction_zero_is_sentinel_360_is_north_witness :
  String.eqb (directionType (set_directionType "degrees" defaults)) "compass" = false
  /\ getWindDirection (fun key => key) (fun _ => "360")
       (set_directionType "degrees" defaults) 360
     = "360°".
Proof.
  split; [reflexivity|].
  pose proof (direction_zero_is_sentinel_360_is_north
                (fun key => key) (fun _ => "360")
                (set_directionType "degrees" defaults)) as H.
  exact (proj1 (proj2 (proj2 (proj2 (proj2 (proj2 (proj2 (proj2 H)))))) eq_refl)).
Defined.

(** C6, evaluated on the code.  The specification has the text and the icon
    name the same octant in compass mode, also on the boundaries.  At 337.5 the text
    classifier answers north and the icon classifier the north-west icon; at
    22.5 the text is north-east and the icon north.  The text table takes
    each range closed below and open above, the icon chain open below and
    closed above; off the boundaries the two agree. *)
Theorem text_and_icon_disagree_on_boundaries
  (translate : string -> string) (Number_toString : Q -> string)
  (config : Config) :
  let compass := set_directionType "compass" config in
  (getWindDirection translate Number_toString compass 337.5
     = translate (octant_key North)
   /\ getDirectionIcon 337.5 = octant_icon NorthWest
   /\ octant_icon NorthWest <> octant_icon North)
  /\ (getWindDirection translate Number_toString compass 22.5
       = translate (octant_key NorthEast)
      /\ getDirectionIcon 22.5 = octant_icon North
      /\ octant_icon North <> octant_icon NorthEast)
  /\ map (fun d => getWindDirection translate Number_toString compass d)
         [67.5; 112.5; 157.5; 202.5; 247.5; 292.5]
     = map (fun o => translate (octant_key o)) [East; SouthEast; South; SouthWest; West; NorthWest]
  /\ map getDirectionIcon [67.5; 112.5; 157.5; 202.5; 247.5; 292.5]
     = map octant_icon [NorthEast; East; SouthEast; South; SouthWest; West]
  /\ (forall d,
        Qeq_bool d 0 = false ->
        Forall (fun b => ~ normalize d == b)
               [22.5; 67.5; 112.5; 157.5; 202.5; 247.5; 292.5; 337.5] ->
        exists o : octant,
          getWindDirection translate Number_toString compass d
          = translate (octant_key o)
          /\ getDirectionIcon d = octant_icon o).
Proof.
  intros compass.
  split; [split; [reflexivity | split; [reflexivity | discriminate]]|].
  split; [split; [reflexivity | split; [reflexivity | discriminate]]|].
  split; [reflexivity|].
  split; [reflexivity|].
  intros d Hd Hb.
  apply text_icon_agree_off_boundary; [reflexivity | exact Hd | exact Hb].
Qed.

(** ** The SMHI coordinate format *)

Lemma all_digits_app (s t : string) :
  all_digits (s ++ t) = all_digits s && all_digits t.
Proof.
  induction s as [|c s IH]; simpl; [reflexivity|].
  rewrite IH, andb_assoc. reflexivity.
Qed.

Lemma all_digits_zeros (k : nat) : all_digits (Helper.zeros k) = true.
Proof. induction k as [|k IH]; simpl; [reflexivity|exact IH]. Qed.

Lemma length_zeros (k : nat) : String.length (Helper.zeros k) = k.
Proof. induction k as [|k IH]; simpl; [reflexivity|rewrite IH; reflexivity]. Qed.

Lemma string_length_app (s t : string) :
  String.length (s ++ t) = (String.length s + String.length t)%nat.
Proof. induction s as [|c s IH]; simpl; [reflexivity|rewrite IH; reflexivity]. Qed.

Lemma all_digits_substring (s : string) :
  forall i n, all_digits s = true -> all_digits (substring i n s) = true.
Proof.
  induction s as [|c s IH]; intros i n H.
  - destruct i, n; reflexivity.
  - simpl in H. apply andb_true_iff in H as [Hc Hs].
    destruct i as [|i]; destruct n as [|n]; simpl; auto.
    rewrite Hc. simpl. apply IH; exact Hs.
Qed.

Lemma length_substring (s : string) :
  forall i n, (i + n <= String.length s)%nat ->
              String.length (substring i n s) = n.
Proof.
  induction s as [|c s IH]; intros i n H; simpl in H.
  - destruct i, n; simpl in *; try lia; reflexivity.
  - destruct i as [|i]; destruct n as [|n]; simpl; try reflexivity.
    + rewrite (IH O n); [reflexivity|simpl; lia].
    + apply IH; lia.
    + apply IH; lia.
Qed.

Lemma all_digits_NilEmpty (u : Decimal.uint) :
  all_digits (NilEmpty.string_of_uint u) = true.
Proof. induction u; simpl; auto. Qed.

Lemma all_digits_decimal (n : Z) : all_digits (Helper.decimal_digits n) = true.
Proof.
  unfold Helper.decimal_digits, NilZero.string_of_uint.
  destruct (N.to_uint (Z.to_N n)); try apply all_digits_NilEmpty; reflexivity.
Qed.

Lemma length_decimal (n : Z) : (1 <= String.length (Helper.decimal_digits n))%nat.
Proof.
  unfold Helper.decimal_digits, NilZero.string_of_uint.
  destruct (N.to_uint (Z.to_N n)); simpl; lia.
Qed.

(** Below 10^21 in magnitude, [toFixed(6)] has the shape [six_decimals]. *)
Lemma toFixed_six_decimals (Number_toString : Q -> string) (x : Q) :
  Qabs x < inject_Z (10 ^ 21) ->
  six_decimals (Helper.toFixed Number_toString x 6).
Proof.
  intros H. unfold Helper.toFixed.
  rewrite (Qle_bool_false _ _ H). cbv zeta.
  set (n := Qfloor _).
  change (6 =? 0)%nat with false. cbv iota.
  set (m := Helper.decimal_digits n).
  set (m' := if (String.length m <=? 6)%nat then _ else m).
  assert (Dm : all_digits m = true) by apply all_digits_decimal.
  assert (Lm : (1 <= String.length m)%nat) by apply length_decimal.
  assert (Dm' : all_digits m' = true).
  { unfold m'. destruct (String.length m <=? 6)%nat; [|exact Dm].
    rewrite all_digits_app, all_digits_zeros, Dm. reflexivity. }
  assert (Lm' : (7 <= String.length m')%nat).
  { unfold m'. destruct (String.length m <=? 6)%nat eqn:E.
    - apply Nat.leb_le in E. rewrite string_length_app, length_zeros. lia.
    - apply Nat.leb_gt in E. lia. }
  exists (if Helper.Qlt_bool x 0 then "-" else ""),
         (substring 0 (String.length m' - 6) m'),
         (substring (String.length m' - 6) 6 m').
  split; [reflexivity|].
  split; [destruct (Helper.Qlt_bool x 0); auto|].
  split.
  { intros E. apply (f_equal String.length) in E.
    rewrite length_substring in E by lia. simpl in E. lia. }
  split; [apply all_digits_substring; exact Dm'|].
  split; [apply all_digits_substring; exact Dm'|].
  apply length_substring. lia.
Qed.

Lemma Qabs_bounded (x b : Q) : - b <= x -> x <= b -> Qabs x <= b.
Proof. intros H1 H2. apply Qabs_Qle_condition. split; assumption. Qed.

(** C7.  For a latitude in [-90, 90] and a longitude in [-180, 180] the
    SMHI builder formats each coordinate with exactly six digits after the
    decimal point (11 becomes ["11.000000"]), and the path of the URL holds
    the formatted longitude, then the formatted latitude. *)
Theorem formatCoordinate_six_decimals
  (Number_toString : Q -> string) (config : Helper.RequestConfig)
  (Hlat : -90 <= Helper.lat config /\ Helper.lat config <= 90)
  (Hlon : -180 <= Helper.lon config /\ Helper.lon config <= 180)
  (Hsmhi : String.eqb (Helper.provider config) "yr" = false) :
  six_decimals (Helper.formatCoordinate Number_toString (Helper.lat config))
  /\ six_decimals (Helper.formatCoordinate Number_toString (Helper.lon config))
  /\ Helper.getProviderUrl Number_toString config
     = "https://opendata-download-metfcst.smhi.se/api/category/pmp3g/version/2/geotype/point/lon/"
         ++ Helper.formatCoordinate Number_toString (Helper.lon config)
         ++ "/lat/"
         ++ Helper.formatCoordinate Number_toString (Helper.lat config)
         ++ "/data.json"
  /\ Helper.formatCoordinate Number_toString 11 = "11.000000".
Proof.
  destruct Hlat as [Hlat1 Hlat2]. destruct Hlon as [Hlon1 Hlon2].
  assert (B : 180 < inject_Z (10 ^ 21)) by reflexivity.
  split.
  { apply toFixed_six_decimals.
    apply Qle_lt_trans with (y := 90); [apply Qabs_bounded; assumption|].
    reflexivity. }
  split.
  { apply toFixed_six_decimals.
    apply Qle_lt_trans with (y := 180); [apply Qabs_bounded; assumption|exact B]. }
  split.
  { unfold Helper.getProviderUrl. rewrite Hsmhi. reflexivity. }
  reflexivity.
Qed.

(** The statement of C7 at the default coordinates of the module. *)
Lemma formatCoordinate_six_decimals_witness :
  six_decimals (Helper.formatCoordinate (fun _ => "") (Helper.lat default_request))
  /\ Helper.getProviderUrl (fun _ => "") default_request
     = "https://opendata-download-metfcst.smhi.se/api/category/pmp3g/version/2/geotype/point/lon/11.974600/lat/57.708900/data.json".
Proof.
  assert (Hlat : -90 <= Helper.lat default_request /\ Helper.lat default_request <= 90)
    by (split; unfold Qle; simpl; lia).
  assert (Hlon : -180 <= Helper.lon default_request /\ Helper.lon default_request <= 180)
    by (split; unfold Qle; simpl; lia).
  pose proof (formatCoordinate_six_decimals (fun _ => "") default_request Hlat Hlon eq_refl)
    as (H1 & _ & H3 & _).
  split; [exact H1|].
  rewrite H3. reflexivity.
Defined.

(** ** The helper's failure signal *)

(** What the helper sends, exchange by exchange: nothing, the failure
    notification once or twice, or one observation, which the provider's
    parser returned for a body read to the end after status 200. *)
Lemma getWindData_sent
  (Number_toString : Q -> string) (JSON_parse : string -> result value)
  (config : Helper.RequestConfig) (x : Helper.exchange) :
  let sent := Helper.sent (Helper.getWindData Number_toString JSON_parse config x) in
  (sent = []
   /\ exists received, x = Helper.ResponseCut 200 received)
  \/ (sent = [("WIND_DATA_ERROR", None)]
      /\ x <> Helper.RequestTimeout)
  \/ (sent = [("WIND_DATA_ERROR", None); ("WIND_DATA_ERROR", None)]
      /\ x = Helper.RequestTimeout)
  \/ exists windData,
      sent = [("WIND_DATA", Some windData)]
      /\ exists rawData jsonData,
          x = Helper.Response 200 rawData
          /\ JSON_parse rawData = Ok jsonData
          /\ parseProviderData jsonData
               (if String.eqb (Helper.provider config) "" then "smhi"
                else Helper.provider config)
             = Ok windData.
Proof.
  intros sent. subst sent.
  destruct x as [message| |statusCode rawData|statusCode received].
  - right; left. split; [reflexivity|discriminate].
  - right; right; left. split; reflexivity.
  - rewrite getWindData_response.
    destruct (statusCode =? 200)%Z eqn:E; cbn [negb].
    + apply Z.eqb_eq in E. subst statusCode. unfold Helper.on_end.
      destruct (JSON_parse rawData) as [jsonData|e] eqn:P.
      * destruct (parseProviderData jsonData _) as [windData|e] eqn:D.
        -- right; right; right. exists windData. split; [reflexivity|].
           exists rawData, jsonData. auto.
        -- right; left. split; [reflexivity|discriminate].
      * right; left. split; [reflexivity|discriminate].
    + right; left. split; [reflexivity|discriminate].
  - unfold Helper.getWindData, Helper.getWindData_on.
    cbn [Helper.signals Helper.listeners Helper.react].
    destruct (statusCode =? 200)%Z eqn:E; cbn [negb].
    + apply Z.eqb_eq in E. subst statusCode.
      left. split; [reflexivity|]. exists received; reflexivity.
    + right; left. split; [reflexivity|discriminate].
Qed.

(** Whatever the runtime emits, the helper sends nothing but
    [WIND_DATA_ERROR] without a payload and [WIND_DATA] with an
    observation. *)
Lemma on_end_notifications
  (JSON_parse : string -> result value) (provider rawData : string)
  (n : string) (p : option WindObservation) :
  In (n, p) (Helper.sent (Helper.on_end JSON_parse provider rawData)) ->
  (n = "WIND_DATA_ERROR" /\ p = None)
  \/ (n = "WIND_DATA" /\ exists o, p = Some o).
Proof.
  unfold Helper.on_end.
  destruct (JSON_parse rawData) as [jsonData|e];
    [destruct (parseProviderData jsonData provider) as [o|e]|];
    simpl; intros [H|[]]; injection H as <- <-; eauto.
Qed.

Lemma listeners_notifications
  (JSON_parse : string -> result value) (provider : string)
  (signals : list Helper.signal) :
  forall (b : Helper.Body) (n : string) (p : option WindObservation),
    In (n, p) (Helper.sent (Helper.listeners JSON_parse provider b signals)) ->
    (n = "WIND_DATA_ERROR" /\ p = None)
    \/ (n = "WIND_DATA" /\ exists o, p = Some o).
Proof.
  induction signals as [|s rest IH]; intros b n p H; [destruct H|].
  cbn [Helper.listeners] in H.
  destruct (Helper.react JSON_parse provider b s) as [b' effects] eqn:R.
  unfold Helper.sent in H. rewrite flat_map_app in H.
  apply in_app_or in H as [H|H]; [|exact (IH b' n p H)].
  fold (Helper.sent effects) in H.
  destruct s as [message| |statusCode|chunk|]; cbn [Helper.react] in R.
  - injection R as <- <-. destruct H as [H|[]]. injection H as <- <-. auto.
  - injection R as <- <-. destruct H as [H|[]]. injection H as <- <-. auto.
  - destruct (negb (statusCode =? 200)%Z); injection R as <- <-;
      [destruct H as [H|[]]; injection H as <- <-; auto|destruct H].
  - destruct (Helper.listening b); injection R as <- <-; destruct H.
  - destruct (Helper.listening b); injection R as <- <-; [|destruct H].
    exact (on_end_notifications _ _ _ _ _ H).
Qed.

(** C9, evaluated on the code.  The specification has every failed
    acquisition delivered as the one failure notification.  The helper sends
    [WIND_DATA_ERROR], with no payload, once for a transport failure, for a
    status other than 200 (404 for one; neither [JSON.parse] nor the
    provider's parser is called then), for a body that is not JSON and for a
    document the provider's parser refuses.  It sends it twice for a
    timeout: the ['timeout'] listener aborts the request, and the aborted
    request reaches the ['error'] listener.  It sends nothing when the body
    of a 200 response is cut before its end, for want of a listener on the
    response.  And it sends a YR document without the wind fields on as
    [WIND_DATA]: the defect of [parseYrData] of C2.  Whatever the runtime
    emits, a notification of the helper is [WIND_DATA_ERROR] without a
    payload or [WIND_DATA] with an observation. *)
Theorem acquisition_failures_delivery
  (Number_toString : Q -> string) (JSON_parse : string -> result value)
  (config : Helper.RequestConfig) :
  let provider :=
    if String.eqb (Helper.provider config) "" then "smhi"
    else Helper.provider config in
  let trace := Helper.getWindData Number_toString JSON_parse config in
  (forall message,
      Helper.sent (trace (Helper.RequestError message))
      = [("WIND_DATA_ERROR", None)])
  /\ (forall statusCode rawData,
        statusCode <> 200%Z ->
        Helper.parser_calls (trace (Helper.Response statusCode rawData)) = []
        /\ Helper.sent (trace (Helper.Response statusCode rawData))
           = [("WIND_DATA_ERROR", None)])
  /\ (forall rawData,
        Helper.parser_calls (trace (Helper.Response 404 rawData)) = []
        /\ Helper.sent (trace (Helper.Response 404 rawData))
           = [("WIND_DATA_ERROR", None)])
  /\ (forall rawData e,
        JSON_parse rawData = Throw e ->
        Helper.sent (trace (Helper.Response 200 rawData))
        = [("WIND_DATA_ERROR", None)])
  /\ (forall rawData jsonData e,
        JSON_parse rawData = Ok jsonData ->
        parseProviderData jsonData provider = Throw e ->
        Helper.sent (trace (Helper.Response 200 rawData))
        = [("WIND_DATA_ERROR", None)])
  /\ Helper.sent (trace Helper.RequestTimeout)
     = [("WIND_DATA_ERROR", None); ("WIND_DATA_ERROR", None)]
  /\ (forall received,
        Helper.sent (trace (Helper.ResponseCut 200 received)) = [])
  /\ (forall rawData,
        Helper.provider config = "yr" ->
        JSON_parse rawData = Ok yr_without_wind ->
        Helper.sent (trace (Helper.Response 200 rawData))
        = [("WIND_DATA",
            Some {| windSpeed := VUndefined; windDirection := VUndefined |})])
  /\ (forall signals n p,
        In (n, p)
           (Helper.sent
              (Helper.getWindData_on Number_toString JSON_parse config signals)) ->
        (n = "WIND_DATA_ERROR" /\ p = None)
        \/ (n = "WIND_DATA" /\ exists o, p = Some o)).
Proof.
  intros provider trace.
  assert (S : forall statusCode rawData,
             statusCode <> 200%Z ->
             Helper.parser_calls (trace (Helper.Response statusCode rawData)) = []
             /\ Helper.sent (trace (Helper.Response statusCode rawData))
                = [("WIND_DATA_ERROR", None)]).
  { intros statusCode rawData H. unfold trace. rewrite getWindData_response.
    apply Z.eqb_neq in H. rewrite H. split; reflexivity. }
  split; [intros message; reflexivity|].
  split; [exact S|].
  split; [intros rawData; apply S; discriminate|].
  split.
  { intros rawData e H. unfold trace. rewrite getWindData_response.
    unfold Helper.on_end. cbn [Z.eqb Pos.eqb negb]. rewrite H. reflexivity. }
  split.
  { intros rawData jsonData e H1 H2. unfold trace. rewrite getWindData_response.
    unfold Helper.on_end. cbn [Z.eqb Pos.eqb negb]. rewrite H1.
    fold provider. rewrite H2. reflexivity. }
  split; [reflexivity|].
  split; [intros received; reflexivity|].
  split.
  { intros rawData Hp H. unfold trace. rewrite getWindData_response.
    unfold Helper.on_end. cbn [Z.eqb Pos.eqb negb]. rewrite H, Hp. reflexivity. }
  intros signals n p H. unfold Helper.getWindData_on in H.
  cbn [Helper.sent flat_map app] in H.
  exact (listeners_notifications _ _ _ _ _ _ H).
Qed.

(** ** The module's state on a failure *)

(** C10.  In every state, receiving [WIND_DATA_ERROR] sets the stored
    observation to [null], whatever it was; the renderer is asked to redraw
    and, from the new state, shows the translated error text and not the
    wind blocks of an earlier observation. *)
Theorem failure_clears_observation
  (translate : string -> string) (config : Config)
  (payload : option WindObservation) (st : State) :
  let result := socketNotificationReceived config "WIND_DATA_ERROR" payload st in
  windData (fst result) = None
  /\ loaded (fst result) = true
  /\ In (UpdateDom (animationSpeed config)) (snd result)
  /\ getDom translate config (fst result)
     = Text "dimmed light small" (translate "ERROR")
  /\ (forall observation className,
        getDom translate config (fst result) <> WindBlocks className observation).
Proof.
  intros result. unfold result, socketNotificationReceived. simpl.
  split; [reflexivity|]. split; [reflexivity|].
  split; [right; apply in_or_app; right; left; reflexivity|].
  split; [reflexivity|]. intros; discriminate.
Qed.

(** ** The scheduler *)

Lemma boot_maxRetries (config : Config) :
  maxRetries (fst (boot config)) = maxRetries config.
Proof. reflexivity. Qed.

Lemma getData_requests (config : Config) (st : State) :
  requests (getData config st)
  = if (retryCount st >=? maxRetries config)%Z then 0%nat else 1%nat.
Proof. unfold getData. destruct (retryCount st >=? maxRetries config)%Z; reflexivity. Qed.

Lemma received_requests (config : Config) (notification : string)
  (payload : option WindObservation) (st : State) :
  requests (snd (socketNotificationReceived config notification payload st)) = 0%nat.
Proof.
  unfold socketNotificationReceived.
  destruct (String.eqb notification "WIND_DATA"); [reflexivity|].
  destruct (String.eqb notification "WIND_DATA_ERROR"); [|reflexivity].
  simpl. destruct (retryCount st + 1 <? maxRetries config)%Z; reflexivity.
Qed.

(** What [socketNotificationReceived] does to the retry count. *)
Lemma received_retryCount (config : Config) (notification : string)
  (payload : option WindObservation) (st : State) :
  retryCount (fst (socketNotificationReceived config notification payload st))
  = if String.eqb notification "WIND_DATA" then 0%Z
    else if String.eqb notification "WIND_DATA_ERROR" then (retryCount st + 1)%Z
    else retryCount st.
Proof.
  unfold socketNotificationReceived.
  destruct (String.eqb notification "WIND_DATA"); [reflexivity|].
  destruct (String.eqb notification "WIND_DATA_ERROR"); reflexivity.
Qed.

Lemma within_bound_boot (config : Config) :
  (0 <= maxRetries config)%Z ->
  within_bound (fst (boot config)) (snd (boot config)).
Proof.
  intros H. unfold within_bound. rewrite boot_maxRetries.
  unfold boot, start, validateConfig, scheduleUpdate, getData. simpl.
  destruct (0 >=? maxRetries config)%Z eqn:E; simpl.
  - repeat split; try lia.
    repeat match goal with
           | |- context [if negb ?b then _ else _] => destruct (negb b)
           end; unfold requests; simpl; lia.
  - repeat split; try lia.
Qed.

Lemma within_bound_getData (config : Config) (w v : World) :
  within_bound config w ->
  module_state v = module_state w ->
  (in_flight v <= in_flight w)%nat ->
  within_bound config (absorb v (module_state w) (getData config (module_state w))).
Proof.
  intros (H0 & H1 & H2) Hs Hf. unfold within_bound. simpl.
  rewrite getData_requests.
  destruct (retryCount (module_state w) >=? maxRetries config)%Z eqn:E.
  - repeat split; try assumption. intros F. apply H2. lia.
  - repeat split; try assumption. intros _. lia.
Qed.

Lemma within_bound_step (config : Config) (w w' : World) (e : event) :
  within_bound config w ->
  step config w e = Some w' ->
  (in_flight w <= 1)%nat ->
  match e with
  | Reply _ _ => (1 <= in_flight w)%nat
  | _ => True
  end ->
  within_bound config w'.
Proof.
  intros J Hstep F A.
  destruct e as [| |notification payload]; simpl in Hstep.
  - destruct (interval_set w); [|discriminate].
    injection Hstep as <-. apply within_bound_getData; auto.
  - destruct (retry_pending w) as [|n]; [discriminate|].
    injection Hstep as <-.
    apply (within_bound_getData config w
             {| module_state := module_state w; in_flight := in_flight w;
                retry_pending := n; interval_set := interval_set w |}); auto.
  - destruct (socketNotificationReceived config notification payload (module_state w))
      as [st acts] eqn:R.
    injection Hstep as <-.
    pose proof (received_requests config notification payload (module_state w)) as Rq.
    pose proof (received_retryCount config notification payload (module_state w)) as Rc.
    rewrite R in Rq, Rc. simpl in Rq, Rc.
    destruct J as (H0 & H1 & H2).
    assert (Fw : in_flight w = 1%nat) by lia.
    unfold within_bound. simpl. rewrite Rq, Rc, Fw. simpl.
    destruct (String.eqb notification "WIND_DATA").
    + repeat split; lia.
    + pose proof (H2 ltac:(lia)).
      destruct (String.eqb notification "WIND_DATA_ERROR"); repeat split; lia.
Qed.

Lemma within_bound_run (config : Config) (events : list event) :
  forall w w',
    within_bound config w ->
    run config w events = Some w' ->
    single_flight config w events ->
    answers_requests config w events ->
    within_bound config w'.
Proof.
  induction events as [|e rest IH]; intros w w' J Hrun S A; simpl in Hrun.
  - injection Hrun as <-. exact J.
  - unfold single_flight in S. simpl in S. simpl in A.
    destruct (step config w e) as [v|] eqn:Hstep; [|discriminate].
    inversion S as [|? ? Fw Frest]; subst.
    destruct A as [Ae Arest].
    apply (IH v w'); [|exact Hrun|exact Frest|exact Arest].
    eapply within_bound_step; eassumption.
Qed.

(** C1, refuted as stated: after three failed acquisitions in a row with the
    default configuration, the retry count is 3, nothing is outstanding, and
    the call of [getData] that a tick of the interval timer makes logs an
    error and sends no request. *)
Lemma tick_blocked_after_max_failures :
  run (fst (boot defaults)) (snd (boot defaults)) three_failures
    = Some {| module_state :=
                {| loaded := true; windData := None; retryCount := 3 |};
              in_flight := 0; retry_pending := 0; interval_set := true |}
  /\ getData (fst (boot defaults))
       {| loaded := true; windData := None; retryCount := 3 |}
     = [LogError "Maximum retry attempts reached"]
  /\ ~ tick_always_acquires.
Proof.
  split; [reflexivity|]. split; [reflexivity|].
  intros H.
  specialize (H defaults
                {| module_state :=
                     {| loaded := true; windData := None; retryCount := 3 |};
                   in_flight := 0; retry_pending := 0; interval_set := true |}
                (ex_intro _ three_failures eq_refl)).
  discriminate H.
Qed.

(** C1, amended.  A tick of the interval timer calls [getData], which sends
    the request for wind data exactly when the retry count is below
    [maxRetries]; at [maxRetries] or above it logs an error and sends
    nothing, and the tick leaves the module state, the outstanding requests
    and the retry timers as they were. *)
Theorem tick_acquires_iff_below_max (config : Config) (w : World) :
  let st := module_state w in
  ((retryCount st < maxRetries config)%Z <->
   getData config st
   = [SendGetWindData (provider config) (lat config) (lon config) (altitude config)])
  /\ ((maxRetries config <= retryCount st)%Z <->
      getData config st = [LogError "Maximum retry attempts reached"])
  /\ (step config w Tick
      = if interval_set w
        then Some {| module_state := st;
                     in_flight :=
                       in_flight w
                       + (if (retryCount st <? maxRetries config)%Z then 1 else 0);
                     retry_pending := retry_pending w;
                     interval_set := true |}
        else None).
Proof.
  intros st. unfold getData. fold st.
  destruct (retryCount st >=? maxRetries config)%Z eqn:E.
  - assert (maxRetries config <= retryCount st)%Z by lia.
    split; [split; [lia|discriminate]|].
    split; [split; auto|].
    simpl. unfold getData. fold st. rewrite E.
    destruct (interval_set w) eqn:I; [|reflexivity].
    assert (L : (retryCount st <? maxRetries config)%Z = false) by lia.
    rewrite L. unfold absorb, requests, retry_timers. simpl. rewrite I.
    repeat f_equal; lia.
  - assert (retryCount st < maxRetries config)%Z by lia.
    split; [split; auto|].
    split; [split; [lia|discriminate]|].
    simpl. unfold getData. fold st. rewrite E.
    destruct (interval_set w) eqn:I; [|reflexivity].
    assert (L : (retryCount st <? maxRetries config)%Z = true) by lia.
    rewrite L. unfold absorb, requests, retry_timers. simpl. rewrite I.
    repeat f_equal; lia.
Qed.

(** C3, refuted as stated, with the default configuration ([maxRetries] 3).
    A failure followed by a tick of the interval timer before the retry
    timer fires leads, through requests that overlap, to a retry count of 4.
    So does a run with one request at a time in which every request times
    out, the helper answering a timed-out request twice. *)
Lemma retry_count_exceeds_max :
  run (fst (boot defaults)) (snd (boot defaults)) overlapping_failures
    = Some {| module_state :=
                {| loaded := true; windData := None; retryCount := 4 |};
              in_flight := 0; retry_pending := 0; interval_set := true |}
  /\ run (fst (boot defaults)) (snd (boot defaults)) timeouts_only
     = Some {| module_state :=
                 {| loaded := true; windData := None; retryCount := 4 |};
               in_flight := 0; retry_pending := 0; interval_set := true |}
  /\ single_flight (fst (boot defaults)) (snd (boot defaults)) timeouts_only
  /\ maxRetries defaults = 3%Z
  /\ ~ retry_count_bounded.
Proof.
  split; [reflexivity|]. split; [reflexivity|].
  split.
  { unfold single_flight.
    set (l := visits _ _ _). vm_compute in l. subst l.
    repeat (constructor; [simpl; lia|]). constructor. }
  split; [reflexivity|].
  intros H.
  specialize (H defaults
                {| module_state :=
                     {| loaded := true; windData := None; retryCount := 4 |};
                   in_flight := 0; retry_pending := 0; interval_set := true |}
                ltac:(discriminate)
                (ex_intro _ overlapping_failures eq_refl)).
  simpl in H. lia.
Qed.

(** C3, amended.  In every world a run from [start] reaches, with
    [maxRetries >= 0]: a failure arms a retry timer exactly when the count
    it has just incremented is below [maxRetries]; a success sets the count
    to 0; and the count is at most [maxRetries] provided that, during the
    run, no two requests were outstanding at once and every notification
    arrived while a request was outstanding (one notification per request
    at most). *)
Theorem retry_bounded_when_answered_once
  (config : Config) (events : list event) (w : World)
  (Hmax : (0 <= maxRetries config)%Z)
  (Hrun : run (fst (boot config)) (snd (boot config)) events = Some w) :
  (forall payload,
      let result :=
        socketNotificationReceived (fst (boot config)) "WIND_DATA_ERROR" payload
          (module_state w) in
      retryCount (fst result) = (retryCount (module_state w) + 1)%Z
      /\ (retry_timers (snd result) = 1%nat <->
          (retryCount (fst result) < maxRetries config)%Z)
      /\ (retry_timers (snd result) = 0%nat <->
          (maxRetries config <= retryCount (fst result))%Z))
  /\ (forall payload,
        retryCount
          (fst (socketNotificationReceived (fst (boot config)) "WIND_DATA" payload
                  (module_state w)))
        = 0%Z)
  /\ (single_flight (fst (boot config)) (snd (boot config)) events ->
      answers_requests (fst (boot config)) (snd (boot config)) events ->
      (0 <= retryCount (module_state w) <= maxRetries config)%Z).
Proof.
  split.
  { intros payload result. unfold result, socketNotificationReceived. simpl.
    split; [reflexivity|].
    destruct (retryCount (module_state w) + 1 <? maxRetries config)%Z eqn:E;
      unfold retry_timers; simpl; split; split; intros; try lia; try discriminate;
      reflexivity. }
  split; [intros payload; reflexivity|].
  intros S A.
  destruct (within_bound_run (fst (boot config)) events _ w
              (within_bound_boot config Hmax) Hrun S A) as (H0 & H1 & _).
  rewrite boot_maxRetries in H1. lia.
Qed.

(** The statement of C3 on the run [three_failures] of the default
    configuration. *)
Lemma retry_bounded_when_answered_once_witness :
  (0 <= maxRetries defaults)%Z
  /\ run (fst (boot defaults)) (snd (boot defaults)) three_failures
     = Some {| module_state :=
                 {| loaded := true; windData := None; retryCount := 3 |};
               in_flight := 0; retry_pending := 0; interval_set := true |}
  /\ single_flight (fst (boot defaults)) (snd (boot defaults)) three_failures
  /\ answers_requests (fst (boot defaults)) (snd (boot defaults)) three_failures
  /\ (0 <= 3 <= maxRetries defaults)%Z.
Proof.
  assert (Hmax : (0 <= maxRetries defaults)%Z) by (simpl; lia).
  assert (S : single_flight (fst (boot defaults)) (snd (boot defaults)) three_failures).
  { unfold single_flight.
    set (l := visits _ _ _). vm_compute in l. subst l.
    repeat (constructor; [simpl; lia|]). constructor. }
  assert (A : answers_requests (fst (boot defaults)) (snd (boot defaults)) three_failures).
  { vm_compute. repeat split; apply le_n. }
  split; [exact Hmax|]. split; [reflexivity|]. split; [exact S|]. split; [exact A|].
  exact (proj2 (proj2 (retry_bounded_when_answered_once defaults three_failures
                         _ Hmax eq_refl)) S A).
Defined.

(** * Further properties of the code *)

(** ** The remainder and the normalization of a direction *)

Lemma Qtrunc_nonneg (q : Q) : 0 <= q -> Qtrunc q = Qfloor q.
Proof.
  destruct q as [a b]. unfold Qle, Qtrunc, Qfloor. simpl. intros H.
  apply Z.quot_div_nonneg; lia.
Qed.

Lemma Qtrunc_nonpos (q : Q) : q <= 0 -> Qtrunc q = (- Qfloor (- q))%Z.
Proof.
  destruct q as [a b]. unfold Qle, Qtrunc, Qfloor. simpl. intros H.
  rewrite <- Z.quot_div_nonneg by lia.
  rewrite Z.quot_opp_l by lia. lia.
Qed.

(** The remainder of a number that is not negative lies in [0, 360). *)
Lemma js_rem_360_nonneg (x : Q) :
  0 <= x -> 0 <= js_rem x 360 /\ js_rem x 360 < 360.
Proof.
  intros H. unfold js_rem.
  assert (E : x == 360 * (x / 360)) by field.
  set (q := x / 360) in *.
  assert (Hq : 0 <= q) by lra.
  rewrite (Qtrunc_nonneg q Hq).
  pose proof (Qfloor_le q) as A. pose proof (Qlt_floor q) as B.
  rewrite inject_Z_plus in B. change (inject_Z 1) with 1 in B.
  clearbody q. set (t := inject_Z (Qfloor q)) in *. clearbody t. lra.
Qed.

(** The remainder of a number that is not positive lies in (-360, 0]. *)
Lemma js_rem_360_nonpos (x : Q) :
  x <= 0 -> -360 < js_rem x 360 /\ js_rem x 360 <= 0.
Proof.
  intros H. unfold js_rem.
  assert (E : x == 360 * (x / 360)) by field.
  set (q := x / 360) in *.
  assert (Hq : q <= 0) by lra.
  rewrite (Qtrunc_nonpos q Hq).
  pose proof (Qfloor_le (- q)) as A. pose proof (Qlt_floor (- q)) as B.
  rewrite inject_Z_plus in B. change (inject_Z 1) with 1 in B.
  rewrite inject_Z_opp.
  clearbody q. set (t := inject_Z (Qfloor (- q))) in *. clearbody t. lra.
Qed.

Lemma js_rem_360_bounds (x : Q) : -360 < js_rem x 360 /\ js_rem x 360 < 360.
Proof.
  destruct (Qlt_le_dec x 0) as [L|G].
  - destruct (js_rem_360_nonpos x) as [A B]; [lra|]. split; lra.
  - destruct (js_rem_360_nonneg x G) as [A B]. split; lra.
Qed.

(** *** The rounded sum *)

Lemma pow2_pos (e : Z) : 0 < pow2 e.
Proof. apply Qpower_0_lt. reflexivity. Qed.

Lemma pow2_succ (e : Z) : pow2 (e + 1) == 2 * pow2 e.
Proof. unfold pow2. rewrite Qpower_plus by discriminate. change (2 ^ 1) with 2. ring. Qed.

Lemma pow2_lt (a b : Z) : (a < b)%Z -> pow2 a < pow2 b.
Proof. intros H. apply Qpower_lt_compat_l; [exact H|reflexivity]. Qed.

Lemma pow2_lt_inv (a b : Z) : pow2 a < pow2 b -> (a < b)%Z.
Proof. intros H. apply (Qpower_lt_compat_l_inv 2); [exact H|reflexivity]. Qed.

Lemma pow2_Z (n : Z) : (0 <= n)%Z -> pow2 n == inject_Z (2 ^ n).
Proof. intros H. unfold pow2. rewrite Zpower_Qpower by exact H. reflexivity. Qed.

Lemma pow2_sub (a b : Z) : pow2 (a - b) == pow2 a / pow2 b.
Proof.
  unfold pow2. unfold Z.sub. rewrite Qpower_plus by discriminate.
  rewrite Qpower_opp. reflexivity.
Qed.

Lemma round_half_even_nonneg (y : Q) : 0 <= y -> (0 <= round_half_even y)%Z.
Proof.
  intros H. unfold round_half_even.
  assert (F : (0 <= Qfloor y)%Z).
  { change 0%Z with (Qfloor 0). apply Qfloor_resp_le. exact H. }
  destruct (Qcompare _ _); [destruct (Z.even _)| |]; lia.
Qed.

Lemma to_double_nonneg (x : Q) : 0 <= x -> 0 <= to_double x.
Proof.
  intros H. unfold to_double.
  destruct (Qeq_bool x 0); [apply Qle_refl|].
  assert (L : Qle_bool 0 x = true) by (apply Qle_bool_iff; exact H).
  rewrite L.
  apply Qmult_le_0_compat.
  - change 0 with (inject_Z 0). rewrite <- Zle_Qle.
    apply round_half_even_nonneg.
    apply Qle_shift_div_l; [apply pow2_pos|].
    rewrite Qmult_0_l. apply Qabs_nonneg.
  - apply Qlt_le_weak, pow2_pos.
Qed.

(** leading bit *)
Lemma leading_bit_spec (a : Q) :
  0 < a -> pow2 (leading_bit a) <= a /\ a < pow2 (leading_bit a + 1).
Proof.
  intros H. destruct a as [n d]. unfold Qlt in H. simpl in H.
  assert (Hn : (0 < n)%Z) by lia.
  unfold leading_bit. cbn [Qnum Qden].
  destruct (Z.log2_spec n Hn) as [N1 N2].
  destruct (Z.log2_spec (Zpos d) (Pos2Z.is_pos d)) as [D1 D2].
  pose proof (Z.log2_nonneg n) as Pn. pose proof (Z.log2_nonneg (Zpos d)) as Pd.
  set (p := Z.log2 n) in *. set (q := Z.log2 (Zpos d)) in *.
  assert (An : inject_Z n < pow2 (p + 1)).
  { rewrite pow2_Z by lia. rewrite <- Zlt_Qlt. rewrite <- Z.add_1_r in N2. exact N2. }
  assert (Bn : pow2 p <= inject_Z n).
  { rewrite pow2_Z by lia. rewrite <- Zle_Qle. exact N1. }
  assert (Ad : inject_Z (Zpos d) < pow2 (q + 1)).
  { rewrite pow2_Z by lia. rewrite <- Zlt_Qlt. rewrite <- Z.add_1_r in D2. exact D2. }
  assert (Bd : pow2 q <= inject_Z (Zpos d)).
  { rewrite pow2_Z by lia. rewrite <- Zle_Qle. exact D1. }
  assert (E : n # d == inject_Z n / inject_Z (Zpos d)).
  { rewrite Qmake_Qdiv. reflexivity. }
  assert (Dpos : 0 < inject_Z (Zpos d)) by reflexivity.
  pose proof (pow2_pos q) as Q0. pose proof (pow2_pos p) as P0.
  pose proof (pow2_pos (p - q)) as PQ0.
  assert (S1 : pow2 (p - q + 1) == 2 * pow2 (p - q)) by apply pow2_succ.
  assert (S0 : pow2 (p - q) == 2 * pow2 (p - q - 1)).
  { rewrite <- pow2_succ. replace (p - q - 1 + 1)%Z with (p - q)%Z by lia. reflexivity. }
  assert (S2 : pow2 (p + 1) == 2 * pow2 p) by apply pow2_succ.
  assert (S3 : pow2 (q + 1) == 2 * pow2 q) by apply pow2_succ.
  assert (M : pow2 p == pow2 (p - q) * pow2 q).
  { rewrite pow2_sub. field. intros Z0. rewrite Z0 in Q0. discriminate. }
  (* upper: n < 2 * 2^p = 2 * 2^(p-q) * 2^q <= 2^(p-q+1) * d *)
  assert (U : n # d < pow2 (p - q + 1)).
  { rewrite E. apply Qlt_shift_div_r; [exact Dpos|].
    rewrite S1. rewrite S2 in An.
    apply Qlt_le_trans with (y := 2 * pow2 p); [exact An|].
    rewrite M. rewrite <- Qmult_assoc.
    apply Qmult_le_l; [reflexivity|].
    apply Qmult_le_l; [exact PQ0|exact Bd]. }
  assert (L : pow2 (p - q - 1) < n # d).
  { rewrite E. apply Qlt_shift_div_l; [exact Dpos|].
    apply Qlt_le_trans with (y := pow2 p); [|exact Bn].
    rewrite M. rewrite S0.
    assert (0 < pow2 (p - q - 1)) by apply pow2_pos.
    rewrite S3 in Ad.
    setoid_replace (2 * pow2 (p - q - 1) * pow2 q) with (pow2 (p - q - 1) * (2 * pow2 q)) by ring.
    apply Qmult_lt_l; assumption. }
  destruct (Qle_bool (pow2 (p - q)) (n # d)) eqn:B.
  - apply Qle_bool_iff in B. split; assumption.
  - assert (B' : n # d < pow2 (p - q)).
    { apply Qnot_le_lt. intros C. apply Qle_bool_iff in C. congruence. }
    split; [apply Qlt_le_weak; exact L|].
    replace (p - q - 1 + 1)%Z with (p - q)%Z by lia. exact B'.
Qed.

Lemma leading_bit_unique (a : Q) (e : Z) :
  pow2 e <= a -> a < pow2 (e + 1) -> 0 < a -> leading_bit a = e.
Proof.
  intros L U H. destruct (leading_bit_spec a H) as [L' U'].
  assert ((e < leading_bit a + 1)%Z).
  { apply pow2_lt_inv. eapply Qle_lt_trans; eassumption. }
  assert ((leading_bit a < e + 1)%Z).
  { apply pow2_lt_inv. eapply Qle_lt_trans; eassumption. }
  lia.
Qed.

Lemma leading_bit_comp (a a' : Q) : 0 < a -> a == a' -> leading_bit a = leading_bit a'.
Proof.
  intros H E. apply leading_bit_unique; [| |exact H].
  - rewrite E. apply leading_bit_spec. rewrite <- E. exact H.
  - rewrite E. apply leading_bit_spec. rewrite <- E. exact H.
Qed.

Lemma round_half_even_comp (y y' : Q) : y == y' -> round_half_even y = round_half_even y'.
Proof.
  intros E. unfold round_half_even.
  rewrite (Qfloor_comp _ _ E).
  assert (C : Qcompare (y - inject_Z (Qfloor y')) (1 # 2)
             = Qcompare (y' - inject_Z (Qfloor y')) (1 # 2)).
  { apply Qcompare_comp; [rewrite E; reflexivity|reflexivity]. }
  rewrite C. reflexivity.
Qed.

Lemma to_double_comp (x x' : Q) : x == x' -> to_double x == to_double x'.
Proof.
  intros E. unfold to_double.
  assert (Z0 : Qeq_bool x 0 = Qeq_bool x' 0).
  { destruct (Qeq_bool x 0) eqn:A; destruct (Qeq_bool x' 0) eqn:B; try reflexivity.
    - apply Qeq_bool_iff in A. rewrite E in A. apply Qeq_bool_iff in A. congruence.
    - apply Qeq_bool_iff in B. rewrite <- E in B. apply Qeq_bool_iff in B. congruence. }
  rewrite <- Z0. destruct (Qeq_bool x 0) eqn:A; [reflexivity|].
  assert (P : 0 < Qabs x).
  { destruct (Qlt_le_dec 0 (Qabs x)) as [|C]; [assumption|].
    exfalso. pose proof (Qabs_nonneg x).
    assert (Qabs x == 0) by lra.
    assert (x == 0).
    { pose proof (Qle_Qabs x) as U1. pose proof (Qle_Qabs (- x)) as U2.
      rewrite Qabs_opp in U2. lra. }
    apply Qeq_bool_iff in H1. congruence. }
  assert (Ea : Qabs x == Qabs x') by (rewrite E; reflexivity).
  rewrite <- (leading_bit_comp _ _ P Ea).
  set (ulp := pow2 _).
  assert (R : round_half_even (Qabs x / ulp) = round_half_even (Qabs x' / ulp)).
  { apply round_half_even_comp. rewrite Ea. reflexivity. }
  rewrite <- R.
  assert (B : Qle_bool 0 x = Qle_bool 0 x').
  { apply Qleb_comp; [reflexivity|exact E]. }
  rewrite <- B. reflexivity.
Qed.

(** The sums at whole and half degrees are not rounded. *)
Lemma to_double_half (z : Z) : (0 < z < 1440)%Z -> to_double (z # 2) == z # 2.
Proof.
  intros H.
  assert (C : halves_exact = true) by (vm_compute; reflexivity).
  unfold halves_exact in C. rewrite forallb_forall in C.
  specialize (C (Z.to_nat z)).
  rewrite Z2Nat.id in C by lia.
  apply Qeq_bool_iff. apply C. apply in_seq. lia.
Qed.

(** *** The normalization *)

Lemma normalize_range (d : Q) : 0 <= normalize d /\ normalize d < 360.
Proof.
  unfold normalize, add. apply js_rem_360_nonneg. apply to_double_nonneg.
  destruct (js_rem_360_bounds d). lra.
Qed.

Lemma Qtrunc_comp (q q' : Q) : q == q' -> Qtrunc q = Qtrunc q'.
Proof.
  intros E. destruct (Qlt_le_dec q 0) as [L|G].
  - rewrite !Qtrunc_nonpos by lra.
    assert (E' : - q == - q') by (rewrite E; reflexivity).
    rewrite (Qfloor_comp _ _ E'). reflexivity.
  - rewrite !Qtrunc_nonneg by lra. apply Qfloor_comp. exact E.
Qed.

Lemma js_rem_comp (x x' : Q) : x == x' -> js_rem x 360 == js_rem x' 360.
Proof.
  intros E. unfold js_rem.
  assert (T : Qtrunc (x / 360) = Qtrunc (x' / 360)).
  { apply Qtrunc_comp. rewrite E. reflexivity. }
  rewrite T, E. reflexivity.
Qed.

(** The remainder of a whole or half number of degrees. *)
Lemma js_rem_half (k : Z) : js_rem (k # 2) 360 == Z.rem k 720 # 2.
Proof.
  unfold js_rem, Qtrunc, Qdiv. cbn [Qinv Qnum Qden Qmult Pos.mul].
  rewrite Z.mul_1_r.
  pose proof (Z.quot_rem' k 720) as QR.
  set (q := Z.quot k 720) in *. set (r := Z.rem k 720) in *.
  unfold Qeq, Qminus, Qplus, Qopp, Qmult, inject_Z. cbn [Qnum Qden Pos.mul].
  lia.
Qed.

Lemma rem_shifted (k : Z) : Z.rem (Z.rem k 720 + 720) 720 = (k mod 720)%Z.
Proof.
  pose proof (Z.quot_rem' k 720) as QR.
  assert (B : (-720 < Z.rem k 720 < 720)%Z).
  { pose proof (Z.rem_bound_abs k 720 ltac:(lia)). lia. }
  rewrite Z.rem_mod_nonneg by lia.
  replace (Z.rem k 720 + 720)%Z with (Z.rem k 720 + 1 * 720)%Z by lia.
  rewrite Z_mod_plus_full.
  rewrite QR at 2.
  rewrite Z.add_comm, Z.mul_comm, Z_mod_plus_full. reflexivity.
Qed.

Lemma half_eq (k : Z) : inject_Z k / 2 == k # 2.
Proof. unfold Qeq, Qdiv, Qmult, Qinv, inject_Z. cbn [Qnum Qden Pos.mul]. lia. Qed.

Lemma normalize_half (d : Q) (k : Z) :
  d == inject_Z k / 2 -> normalize d == inject_Z (k mod 720) / 2.
Proof.
  intros E. rewrite half_eq in E. rewrite half_eq.
  unfold normalize, add.
  assert (B : (-720 < Z.rem k 720 < 720)%Z).
  { pose proof (Z.rem_bound_abs k 720 ltac:(lia)). lia. }
  assert (R1 : js_rem d 360 + 360 == (Z.rem k 720 + 720) # 2).
  { rewrite (js_rem_comp _ _ E), js_rem_half.
    unfold Qeq, Qplus. cbn [Qnum Qden Pos.mul]. lia. }
  assert (R2 : to_double (js_rem d 360 + 360) == (Z.rem k 720 + 720) # 2).
  { rewrite (to_double_comp _ _ R1). apply to_double_half. lia. }
  rewrite (js_rem_comp _ _ R2), js_rem_half, rem_shifted. reflexivity.
Qed.

(** X1.  The normalization [((degrees % 360) + 360) % 360] sends every
    finite direction, negative ones included, into [0, 360).  A whole or half
    number of degrees is sent to its residue modulo 360 exactly.  Other
    directions are sent to a rounded value, the sum being rounded to a
    double: 0.1 is not sent to itself, and a direction just above -157.5 and
    that direction one turn later are not sent to the same value. *)
Theorem normalize_rounded (d : Q) :
  (0 <= normalize d /\ normalize d < 360)
  /\ (forall k : Z,
        d == inject_Z k / 2 -> normalize d == inject_Z (k mod 720) / 2)
  /\ ~ normalize 0.1 == 0.1
  /\ ~ normalize (above_south_boundary + 360) == normalize above_south_boundary.
Proof.
  split; [apply normalize_range|].
  split; [intros k; apply normalize_half|].
  split; intros H; vm_compute in H; discriminate H.
Qed.

(** ** The direction classifiers on every direction *)

Lemma Qle_bool_left (n n' c : Q) : n == n' -> Qle_bool n c = Qle_bool n' c.
Proof. intros E. apply Qleb_comp; [exact E|reflexivity]. Qed.

Lemma Qle_bool_right (n n' c : Q) : n == n' -> Qle_bool c n = Qle_bool c n'.
Proof. intros E. apply Qleb_comp; [reflexivity|exact E]. Qed.

Lemma getDirectionIcon_normalized (d d' : Q) :
  Qeq_bool d 0 = false -> Qeq_bool d' 0 = false ->
  normalize d == normalize d' ->
  getDirectionIcon d = getDirectionIcon d'.
Proof.
  intros H H' E. unfold getDirectionIcon. rewrite H, H'.
  unfold leb, gtb. rewrite !(Qle_bool_left _ _ _ E). reflexivity.
Qed.

Lemma getWindDirection_normalized
  (translate : string -> string) (Number_toString : Q -> string)
  (config : Config) (d d' : Q) :
  directionType config = "compass" ->
  Qeq_bool d 0 = false -> Qeq_bool d' 0 = false ->
  normalize d == normalize d' ->
  getWindDirection translate Number_toString config d
  = getWindDirection translate Number_toString config d'.
Proof.
  intros C H H' E. unfold getWindDirection. rewrite H, H', C.
  simpl String.eqb. cbv iota.
  unfold directions. cbn [find]. unfold in_range, leb, ltb, geb, gtb.
  cbn [min dmax dir].
  rewrite !(Qle_bool_right _ _ _ E). reflexivity.
Qed.

Lemma normalize_half_turn (d : Q) (k turns : Z) :
  d == inject_Z k / 2 ->
  normalize (d + 360 * inject_Z turns) == normalize d.
Proof.
  intros E.
  assert (E' : d + 360 * inject_Z turns == inject_Z (k + turns * 720) / 2).
  { rewrite E, inject_Z_plus, inject_Z_mult. field. }
  rewrite (normalize_half _ _ E), (normalize_half _ _ E').
  rewrite Z_mod_plus_full. reflexivity.
Qed.

(** X2.  In compass mode, a direction that is a whole or half number of
    degrees and the direction a whole number of turns away get the same icon
    and the same text, as long as neither of the two is the sentinel 0.
    (Other directions can change octant with a full turn: the direction
    [above_south_boundary] gets the icon of the south-west, and the same
    direction one turn later the icon of the south.) *)
Theorem direction_full_turn_at_half_degrees
  (translate : string -> string) (Number_toString : Q -> string)
  (config : Config) (d : Q) (k turns : Z)
  (Hcompass : directionType config = "compass")
  (Hhalf : d == inject_Z k / 2)
  (Hd : Qeq_bool d 0 = false)
  (Hturn : Qeq_bool (d + 360 * inject_Z turns) 0 = false) :
  getDirectionIcon (d + 360 * inject_Z turns) = getDirectionIcon d
  /\ getWindDirection translate Number_toString config (d + 360 * inject_Z turns)
     = getWindDirection translate Number_toString config d
  /\ getDirectionIcon above_south_boundary = octant_icon SouthWest
  /\ getDirectionIcon (above_south_boundary + 360) = octant_icon South.
Proof.
  split; [|split].
  - apply getDirectionIcon_normalized; auto.
    apply (normalize_half_turn _ k); exact Hhalf.
  - apply getWindDirection_normalized; auto.
    apply (normalize_half_turn _ k); exact Hhalf.
  - split; vm_compute; reflexivity.
Qed.

(** X2 at 45 degrees and one turn more. *)
Lemma direction_full_turn_at_half_degrees_witness :
  getDirectionIcon (45 + 360 * inject_Z 1) = getDirectionIcon 45
  /\ getWindDirection (fun key => key) (fun _ => "") defaults (45 + 360 * inject_Z 1)
     = getWindDirection (fun key => key) (fun _ => "") defaults 45.
Proof.
  pose proof (direction_full_turn_at_half_degrees
                (fun key => key) (fun _ => "") defaults 45 90 1
                eq_refl eq_refl eq_refl eq_refl) as (H1 & H2 & _).
  split; [exact H1|exact H2].
Defined.







(** ** The speed classifiers *)

Lemma first_bucket_range (s : Q) (cs : list Q) :
  forall k, (k <= first_bucket s cs k <= k + Z.of_nat (List.length cs))%Z.
Proof.
  induction cs as [|c cs IH]; intros k; simpl.
  - lia.
  - destruct (Qle_bool s c); [lia|]. specialize (IH (k + 1)%Z). lia.
Qed.

Lemma first_bucket_monotone (s1 s2 : Q) (cs : list Q) :
  s1 <= s2 ->
  forall k, (first_bucket s1 cs k <= first_bucket s2 cs k)%Z.
Proof.
  intros H. induction cs as [|c cs IH]; intros k; simpl.
  - lia.
  - destruct (Qle_bool s1 c) eqn:E1.
    + destruct (Qle_bool s2 c); [lia|].
      pose proof (first_bucket_range s2 cs (k + 1)). lia.
    + assert (E2 : Qle_bool s2 c = false).
      { destruct (Qle_bool s2 c) eqn:E2; [|reflexivity].
        apply Qle_bool_iff in E2.
        assert (L : s1 <= c) by lra. apply Qle_bool_iff in L. congruence. }
      rewrite E2. apply IH.
Qed.

Lemma getBeaufortForce_range (s : Q) :
  exists f, getBeaufortForce s = Ok f /\ (0 <= f <= 12)%Z.
Proof.
  exists (classifyBeaufort s). split; [apply getBeaufortForce_first_bucket|].
  unfold classifyBeaufort.
  pose proof (first_bucket_range s beaufort_ceilings 0) as H.
  change (Z.of_nat (List.length beaufort_ceilings)) with 12%Z in H. lia.
Qed.

(** X4.  [getBeaufortForce] returns a force for every speed, negative ones
    included (the [find] never comes back empty, so no TypeError); the force
    is between 0 and 12; and a higher speed never gets a lower force. *)
Theorem beaufort_range_and_monotone :
  (forall s, exists f, getBeaufortForce s = Ok f /\ (0 <= f <= 12)%Z)
  /\ (forall s1 s2 f1 f2,
         s1 <= s2 ->
         getBeaufortForce s1 = Ok f1 -> getBeaufortForce s2 = Ok f2 ->
         (f1 <= f2)%Z).
Proof.
  split; [exact getBeaufortForce_range|].
  intros s1 s2 f1 f2 H E1 E2.
  rewrite getBeaufortForce_first_bucket in E1, E2.
  injection E1 as <-. injection E2 as <-.
  apply first_bucket_monotone; exact H.
Qed.

(** X5.  Outside the Beaufort display the icon for the speed depends on the
    speed only through its Beaufort force: the five thresholds of
    [getWindIcon] are the ceilings of the forces 0, 2, 6, 9 and 11, so that
    force 0 gives [wi-cloud], 1 to 2 [wi-windy], 3 to 6 [wi-strong-wind],
    7 to 9 [wi-gale-warning], 10 to 11 [wi-storm-warning] and 12
    [wi-hurricane-warning]. *)
Theorem getWindIcon_by_force (config : Config) (s : Q)
  (Hdisplay : String.eqb (displayType config) "beaufort" = false) :
  exists f : Z,
    getBeaufortForce s = Ok f
    /\ getWindIcon config s = Ok (icon_of_force f).
Proof.
  exists (classifyBeaufort s). split; [apply getBeaufortForce_first_bucket|].
  unfold getWindIcon. rewrite Hdisplay.
  unfold classifyBeaufort, beaufort_ceilings. cbn [first_bucket]. unfold leb.
  destruct (Qlt_le_dec 0.2 s) as [G1|L1]; [|settle_comparisons; reflexivity].
  destruct (Qlt_le_dec 1.5 s) as [G2|L2]; [|settle_comparisons; reflexivity].
  destruct (Qlt_le_dec 3.3 s) as [G3|L3]; [|settle_comparisons; reflexivity].
  destruct (Qlt_le_dec 5.4 s) as [G4|L4]; [|settle_comparisons; reflexivity].
  destruct (Qlt_le_dec 7.9 s) as [G5|L5]; [|settle_comparisons; reflexivity].
  destruct (Qlt_le_dec 10.7 s) as [G6|L6]; [|settle_comparisons; reflexivity].
  destruct (Qlt_le_dec 13.8 s) as [G7|L7]; [|settle_comparisons; reflexivity].
  destruct (Qlt_le_dec 17.1 s) as [G8|L8]; [|settle_comparisons; reflexivity].
  destruct (Qlt_le_dec 20.7 s) as [G9|L9]; [|settle_comparisons; reflexivity].
  destruct (Qlt_le_dec 24.4 s) as [G10|L10]; [|settle_comparisons; reflexivity].
  destruct (Qlt_le_dec 28.4 s) as [G11|L11]; [|settle_comparisons; reflexivity].
  destruct (Qlt_le_dec 32.6 s) as [G12|L12]; [|settle_comparisons; reflexivity].
  settle_comparisons; reflexivity.
Qed.

(** X5 at 5 m/s with the default display. *)
Lemma getWindIcon_by_force_witness :
  exists f : Z,
    getBeaufortForce 5 = Ok f /\ getWindIcon defaults 5 = Ok (icon_of_force f).
Proof. exact (getWindIcon_by_force defaults 5 eq_refl). Defined.

Lemma force_cases (f : Z) :
  (0 <= f <= 12)%Z ->
  In f [0; 1; 2; 3; 4; 5; 6; 7; 8; 9; 10; 11; 12]%Z.
Proof.
  intros H. simpl.
  assert (f = 0 \/ f = 1 \/ f = 2 \/ f = 3 \/ f = 4 \/ f = 5 \/ f = 6 \/ f = 7
          \/ f = 8 \/ f = 9 \/ f = 10 \/ f = 11 \/ f = 12)%Z as C by lia.
  intuition auto.
Qed.

(** X6.  With the Beaufort display, the icon and the text of the speed show
    the same force: the icon is [wi-wind-beaufort-] followed by the force in
    digits, one of the thirteen names from [wi-wind-beaufort-0] to
    [wi-wind-beaufort-12], and the text is the same digits, a space and the
    translation of ["BEAUFORT"]. *)
Theorem beaufort_icon_and_label
  (translate : string -> string) (Number_toString : Q -> string)
  (config : Config) (s : Q)
  (Hdisplay : String.eqb (displayType config) "beaufort" = true) :
  exists f : Z,
    getBeaufortForce s = Ok f
    /\ getWindIcon config s = Ok ("wi-wind-beaufort-" ++ Helper.decimal_digits f)
    /\ speedValue translate Number_toString config s
       = Ok (Helper.decimal_digits f ++ " " ++ translate "BEAUFORT")
    /\ In ("wi-wind-beaufort-" ++ Helper.decimal_digits f)
          ["wi-wind-beaufort-0"; "wi-wind-beaufort-1"; "wi-wind-beaufort-2";
           "wi-wind-beaufort-3"; "wi-wind-beaufort-4"; "wi-wind-beaufort-5";
           "wi-wind-beaufort-6"; "wi-wind-beaufort-7"; "wi-wind-beaufort-8";
           "wi-wind-beaufort-9"; "wi-wind-beaufort-10"; "wi-wind-beaufort-11";
           "wi-wind-beaufort-12"].
Proof.
  destruct (getBeaufortForce_range s) as (f & E & R).
  exists f. split; [exact E|].
  split; [unfold getWindIcon, getBeaufortIcon; rewrite Hdisplay, E; reflexivity|].
  split.
  { unfold speedValue. rewrite Hdisplay.
    apply String.eqb_eq in Hdisplay. rewrite Hdisplay. simpl String.eqb.
    rewrite E. reflexivity. }
  pose proof (force_cases f R) as C. simpl in C.
  repeat (destruct C as [<-|C]; [vm_compute; tauto|]). contradiction.
Qed.

(** X6 at 9 m/s. *)
Lemma beaufort_icon_and_label_witness :
  exists f : Z,
    getBeaufortForce 9 = Ok f
    /\ getWindIcon beaufort_defaults 9
       = Ok ("wi-wind-beaufort-" ++ Helper.decimal_digits f)
    /\ speedValue (fun key => key) (fun _ => "") beaufort_defaults 9
       = Ok (Helper.decimal_digits f ++ " " ++ "BEAUFORT").
Proof.
  destruct (beaufort_icon_and_label (fun key => key) (fun _ => "")
              beaufort_defaults 9 eq_refl) as (f & E & I & V & _).
  exists f. split; [exact E|]. split; [exact I|exact V].
Defined.



(** ** The validation of the configuration *)







(** ** The YR path, link by link *)

Lemma nullish_not_truthy (v : value) : nullish v = true -> truthy v = false.
Proof. destruct v; simpl; congruence. Qed.

Lemma opt_member_nullish (v : value) (k : string) :
  nullish v = true -> nullish (v ?. k) = true.
Proof. unfold opt_member. intros ->. reflexivity. Qed.

Lemma opt_index0_nullish (v : value) :
  nullish v = true -> nullish (v ?.[0]) = true.
Proof. unfold opt_index0. intros ->. reflexivity. Qed.

Lemma yr_links_nullish (data : value) :
  Exists (fun v => nullish v = true) (yr_links data) ->
  nullish (yr_details data) = true.
Proof.
  unfold yr_links, yr_details. intros H.
  repeat match goal with
         | H : Exists _ (_ :: _) |- _ => inversion H; clear H; subst
         | H : Exists _ [] |- _ => inversion H
         end;
    repeat first [ assumption
                 | apply opt_member_nullish
                 | apply opt_index0_nullish ].
Qed.

(** X9.  [parseYrData] returns the two numbers of a detail block that holds
    them; it throws the error "Invalid YR data structure" as soon as one
    link of the path from the document to the detail block is [null] or
    [undefined], an empty time series being one such case; and whenever it
    returns, no link of the path was [null] or [undefined]. *)
Theorem parseYrData_path :
  (forall data fields s d,
      yr_details data = VObj fields ->
      lookup "wind_speed" fields = VNum s ->
      lookup "wind_from_direction" fields = VNum d ->
      parseYrData data = Ok {| windSpeed := VNum s; windDirection := VNum d |})
  /\ (forall data,
        Exists (fun v => nullish v = true) (yr_links data) ->
        parseYrData data = Throw (Error "Invalid YR data structure"))
  /\ (forall data,
        data ?. "properties" ?. "timeseries" = VArr [] ->
        parseYrData data = Throw (Error "Invalid YR data structure"))
  /\ (forall data o,
        parseYrData data = Ok o ->
        Forall (fun v => nullish v = false) (yr_links data)).
Proof.
  split.
  { intros data fields s d D S1 S2.
    rewrite parseYrData_truthy by (rewrite D; reflexivity).
    rewrite D. simpl. rewrite S1, S2. reflexivity. }
  split.
  { intros data H. apply parseYrData_falsy.
    apply nullish_not_truthy, yr_links_nullish. exact H. }
  split.
  { intros data H. apply parseYrData_falsy. unfold yr_details. rewrite H. reflexivity. }
  intros data o H.
  apply Forall_forall. intros v Hv.
  destruct (nullish v) eqn:N; [|reflexivity].
  assert (E : Exists (fun v => nullish v = true) (yr_links data)).
  { apply Exists_exists. exists v. auto. }
  rewrite (parseYrData_falsy data) in H; [discriminate|].
  apply nullish_not_truthy, yr_links_nullish. exact E.
Qed.

(** ** What the helper sends for SMHI *)

(** X10.  For every provider other than ["yr"], an observation that the
    helper sends with [WIND_DATA] has two numbers as fields, whatever the
    exchange and whatever the document: the SMHI path never lets a partial
    observation through. *)
Theorem smhi_observations_are_complete
  (Number_toString : Q -> string) (JSON_parse : string -> result value)
  (config : Helper.RequestConfig) (x : Helper.exchange) (o : WindObservation)
  (Hsmhi : String.eqb (Helper.provider config) "yr" = false)
  (Hsent : In ("WIND_DATA", Some o)
              (Helper.sent (Helper.getWindData Number_toString JSON_parse config x))) :
  exists s d, o = {| windSpeed := VNum s; windDirection := VNum d |}.
Proof.
  pose proof (getWindData_sent Number_toString JSON_parse config x) as G.
  cbv zeta in G.
  destruct G as [[E _]|[[E _]|[[E _]|(w & E & raw & doc & -> & P & D)]]];
    rewrite E in Hsent; simpl in Hsent;
    try (destruct Hsent as [Hs|[Hs|[]]]; discriminate);
    try (destruct Hsent as [Hs|[]]; discriminate);
    try contradiction.
  destruct Hsent as [Hs|[]]. injection Hs as <-.
  assert (S : parseProviderData doc (if String.eqb (Helper.provider config) ""
                                     then "smhi" else Helper.provider config)
              = parseSmhiData doc).
  { unfold parseProviderData.
    destruct (String.eqb (Helper.provider config) ""); [reflexivity|].
    rewrite Hsmhi. reflexivity. }
  rewrite S in D.
  destruct (parseSmhiData_Ok_inv _ _ D) as (ps & pw & pd & s & d & _ & _ & _ & _ & _ & ->).
  exists s, d. reflexivity.
Qed.

(** X10 on the example response. *)
Lemma smhi_observations_are_complete_witness :
  exists s d,
    {| windSpeed := VNum 7.5; windDirection := VNum 180 |}
    = {| windSpeed := VNum s; windDirection := VNum d |}.
Proof.
  exact (smhi_observations_are_complete (fun _ => "") (fun _ => Ok smhi_example)
           default_request (Helper.Response 200 "{}")
           {| windSpeed := VNum 7.5; windDirection := VNum 180 |}
           eq_refl (or_introl eq_refl)).
Defined.

(** ** The provider of the request and the provider of the parser *)

Lemma prefix_app (p s : string) : String.prefix p (p ++ s) = true.
Proof.
  induction p as [|c p IH]; simpl; [destruct s; reflexivity|].
  destruct (ascii_dec c c) as [_|N]; [exact IH|contradiction].
Qed.

(** X11.  On a 200 response whose body is JSON the helper has issued one
    request, with a timeout of 10000 ms, and sends one notification, and the
    two go by the same provider: the URL is the one of api.met.no exactly
    when the document goes through [parseYrData], and the SMHI one exactly
    when it goes through [parseSmhiData], the empty provider name included
    (it is read as SMHI on both sides). *)
Theorem helper_url_matches_parser
  (Number_toString : Q -> string) (JSON_parse : string -> result value)
  (config : Helper.RequestConfig) (rawData : string) (jsonData : value)
  (Hjson : JSON_parse rawData = Ok jsonData) :
  let trace :=
    Helper.getWindData Number_toString JSON_parse config
      (Helper.Response 200 rawData) in
  Helper.requested trace
  = [(Helper.getProviderUrl Number_toString config, 10000%Z)]
  /\ (String.eqb (Helper.provider config) "yr" = true ->
      String.prefix "https://api.met.no/"
        (Helper.getProviderUrl Number_toString config) = true
      /\ Helper.sent trace = [notify (parseYrData jsonData)])
  /\ (String.eqb (Helper.provider config) "yr" = false ->
      String.prefix "https://opendata-download-metfcst.smhi.se/"
        (Helper.getProviderUrl Number_toString config) = true
      /\ Helper.sent trace = [notify (parseSmhiData jsonData)]).
Proof.
  intros trace. unfold trace. rewrite getWindData_response. unfold Helper.on_end.
  simpl. rewrite Hjson. unfold parseProviderData.
  split.
  { destruct (String.eqb (Helper.provider config) "");
      match goal with |- context [if ?b then parseYrData _ else _] => destruct b end;
      match goal with |- context [match ?r with Ok _ => _ | Throw _ => _ end] => destruct r end;
      reflexivity. }
  split.
  - intros Y. split.
    + unfold Helper.getProviderUrl. rewrite Y.
      apply (prefix_app "https://api.met.no/").
    + apply String.eqb_eq in Y. rewrite Y. simpl.
      destruct (parseYrData jsonData); reflexivity.
  - intros Y. split.
    + unfold Helper.getProviderUrl. rewrite Y.
      apply (prefix_app "https://opendata-download-metfcst.smhi.se/").
    + destruct (String.eqb (Helper.provider config) "") eqn:E; simpl.
      * destruct (parseSmhiData jsonData); reflexivity.
      * rewrite Y. destruct (parseSmhiData jsonData); reflexivity.
Qed.

(** X11 on the example response. *)
Lemma helper_url_matches_parser_witness :
  Helper.requested
    (Helper.getWindData (fun _ => "") (fun _ => Ok smhi_example) default_request
       (Helper.Response 200 "{}"))
  = [(Helper.getProviderUrl (fun _ => "") default_request, 10000%Z)]
  /\ Helper.sent
       (Helper.getWindData (fun _ => "") (fun _ => Ok smhi_example) default_request
          (Helper.Response 200 "{}"))
     = [notify (parseSmhiData smhi_example)].
Proof.
  pose proof (helper_url_matches_parser (fun _ => "") (fun _ => Ok smhi_example)
                default_request "{}" smhi_example eq_refl) as (R & _ & S).
  split; [exact R|]. exact (proj2 (S eq_refl)).
Defined.

(** ** One request, from the helper back to the module *)

Lemma answer_delivers
  (Number_toString : Q -> string) (JSON_parse : string -> result value)
  (config : Config) (request : Helper.RequestConfig) (x : Helper.exchange)
  (st : State) :
  Socket.answer Number_toString JSON_parse config request x st
  = Socket.deliver config
      (Helper.sent (Helper.getWindData Number_toString JSON_parse request x)) st.
Proof. reflexivity. Qed.

Lemma deliver_failure (config : Config) (st : State) :
  Socket.deliver config [("WIND_DATA_ERROR", None)] st
  = {| loaded := true; windData := None; retryCount := retryCount st + 1 |}.
Proof. reflexivity. Qed.

(** X12.  One request followed through the helper and back to the module,
    [st] being the state of the module when the helper answers.  A transport
    failure, a status other than 200, a body that is not JSON and a document
    that the provider's parser refuses clear the stored observation and add
    one to the retry count; a timeout, answered twice, adds two; a body read
    to the end that the parser accepts stores the observation it returns,
    with a retry count of 0; a 200 response cut before its end changes
    nothing, so that the module goes on showing what it showed.  An
    observation stored after the request is the parser's for this response,
    or the one stored before a response that was cut. *)
Theorem exchange_outcome
  (Number_toString : Q -> string) (JSON_parse : string -> result value)
  (config : Config) (request : Helper.RequestConfig) (st : State) :
  let p :=
    if String.eqb (Helper.provider request) "" then "smhi"
    else Helper.provider request in
  let answer x := Socket.answer Number_toString JSON_parse config request x st in
  let failed n :=
    {| loaded := true; windData := None; retryCount := retryCount st + n |} in
  (forall message, answer (Helper.RequestError message) = failed 1%Z)
  /\ answer Helper.RequestTimeout = failed 2%Z
  /\ (forall statusCode body,
        statusCode <> 200%Z ->
        answer (Helper.Response statusCode body) = failed 1%Z
        /\ answer (Helper.ResponseCut statusCode body) = failed 1%Z)
  /\ (forall rawData e,
        JSON_parse rawData = Throw e ->
        answer (Helper.Response 200 rawData) = failed 1%Z)
  /\ (forall rawData jsonData e,
        JSON_parse rawData = Ok jsonData ->
        parseProviderData jsonData p = Throw e ->
        answer (Helper.Response 200 rawData) = failed 1%Z)
  /\ (forall rawData jsonData o,
        JSON_parse rawData = Ok jsonData ->
        parseProviderData jsonData p = Ok o ->
        answer (Helper.Response 200 rawData)
        = {| loaded := true; windData := Some o; retryCount := 0 |})
  /\ (forall received, answer (Helper.ResponseCut 200 received) = st)
  /\ (forall x o,
        windData (answer x) = Some o ->
        (exists received,
            x = Helper.ResponseCut 200 received /\ windData st = Some o)
        \/ (exists rawData jsonData,
               x = Helper.Response 200 rawData
               /\ JSON_parse rawData = Ok jsonData
               /\ parseProviderData jsonData p = Ok o)).
Proof.
  intros p answer failed. unfold answer. clear answer.
  split; [intros message; reflexivity|].
  split.
  { rewrite answer_delivers. cbn. unfold failed. f_equal. lia. }
  split.
  { intros statusCode body H. apply Z.eqb_neq in H.
    rewrite !answer_delivers, getWindData_response.
    unfold Helper.getWindData, Helper.getWindData_on.
    cbn [Helper.signals Helper.listeners Helper.react].
    rewrite H. split; reflexivity. }
  split.
  { intros rawData e H. rewrite answer_delivers, getWindData_response.
    unfold Helper.on_end. cbn [Z.eqb Pos.eqb negb]. rewrite H. reflexivity. }
  split.
  { intros rawData jsonData e H1 H2. rewrite answer_delivers, getWindData_response.
    unfold Helper.on_end. cbn [Z.eqb Pos.eqb negb]. rewrite H1.
    fold p. rewrite H2. reflexivity. }
  split.
  { intros rawData jsonData o H1 H2. rewrite answer_delivers, getWindData_response.
    unfold Helper.on_end. cbn [Z.eqb Pos.eqb negb]. rewrite H1.
    fold p. rewrite H2. reflexivity. }
  split; [intros received; reflexivity|].
  intros x o H. rewrite answer_delivers in H.
  pose proof (getWindData_sent Number_toString JSON_parse request x) as G.
  cbv zeta in G.
  destruct G as [[E (received & ->)]|[[E _]|[[E _]|(w & E & raw & doc & -> & P & D)]]];
    rewrite E in H.
  - left. exists received. split; [reflexivity|exact H].
  - discriminate H.
  - discriminate H.
  - right. cbn in H. injection H as <-. exists raw, doc. auto.
Qed.

(** ** Runs of the scheduler *)

Lemma step_retryCount (config : Config) (w w' : World) (e : event) :
  step config w e = Some w' ->
  retryCount (module_state w')
  = if is_success e then 0%Z
    else if is_failure e then (retryCount (module_state w) + 1)%Z
    else retryCount (module_state w).
Proof.
  intros H. destruct e as [| |notification payload]; simpl in H.
  - destruct (interval_set w); [|discriminate]. injection H as <-. reflexivity.
  - destruct (retry_pending w); [discriminate|]. injection H as <-. reflexivity.
  - pose proof (received_retryCount config notification payload (module_state w)) as R.
    destruct (socketNotificationReceived config notification payload (module_state w))
      as [st acts].
    injection H as <-. simpl in *. exact R.
Qed.

Lemma existsb_rev {A : Type} (f : A -> bool) (l : list A) :
  existsb f (rev l) = existsb f l.
Proof.
  induction l as [|a l IH]; simpl; [reflexivity|].
  rewrite existsb_app, IH. simpl. rewrite orb_false_r. apply orb_comm.
Qed.

Lemma failures_since_success_snoc (later : list event) (e : event) :
  failures_since_success (later ++ [e])
  = if existsb is_success later then failures_since_success later
    else (failures_since_success later
          + (if is_success e then 0 else if is_failure e then 1 else 0))%nat.
Proof.
  induction later as [|l later IH]; simpl.
  - destruct (is_success e); [reflexivity|]. destruct (is_failure e); reflexivity.
  - destruct (is_success l); simpl; [reflexivity|].
    rewrite IH. destruct (existsb is_success later); [reflexivity|].
    destruct (is_failure l); reflexivity.
Qed.

Lemma run_retryCount (config : Config) (events : list event) :
  forall w w',
    run config w events = Some w' ->
    retryCount (module_state w')
    = ((if existsb is_success events then 0 else retryCount (module_state w))
       + Z.of_nat (failures_since_success (rev events)))%Z.
Proof.
  induction events as [|e rest IH]; intros w w' H; simpl in H.
  - injection H as <-. simpl. lia.
  - destruct (step config w e) as [v|] eqn:Hs; [|discriminate].
    rewrite (IH v w' H). rewrite (step_retryCount _ _ _ _ Hs).
    simpl rev. rewrite failures_since_success_snoc, existsb_rev.
    simpl existsb.
    destruct (existsb is_success rest); [rewrite orb_true_r; reflexivity|].
    rewrite orb_false_r.
    destruct (is_success e); [simpl; lia|].
    destruct (is_failure e); lia.
Qed.

(** X13.  In every world a run from [start] reaches, with or without
    overlapping requests, the retry count is the number of failures received
    since the last success (since the start when there was none). *)
Theorem retry_count_counts_failures (config : Config) (events : list event) (w : World) :
  run (fst (boot config)) (snd (boot config)) events = Some w ->
  retryCount (module_state w) = Z.of_nat (failures_since_success (rev events)).
Proof.
  intros H. rewrite (run_retryCount _ _ _ _ H).
  destruct (existsb is_success events); reflexivity.
Qed.

(** X13 on three failures in a row. *)
Lemma retry_count_counts_failures_witness :
  retryCount {| loaded := true; windData := None; retryCount := 3 |}
  = Z.of_nat (failures_since_success (rev three_failures)).
Proof.
  exact (retry_count_counts_failures defaults three_failures
           {| module_state :=
                {| loaded := true; windData := None; retryCount := 3 |};
              in_flight := 0; retry_pending := 0; interval_set := true |}
           eq_refl).
Defined.

Lemma step_facts (config : Config) (w w' : World) (e : event) :
  step config w e = Some w' ->
  (interval_set w = true -> interval_set w' = true)
  /\ loaded (module_state w')
     = (loaded (module_state w) || is_success e || is_failure e)
  /\ ((windData (module_state w) <> None -> retryCount (module_state w) = 0%Z) ->
      windData (module_state w') <> None -> retryCount (module_state w') = 0%Z).
Proof.
  intros H. destruct e as [| |notification payload]; simpl in H.
  - destruct (interval_set w) eqn:I; [|discriminate]. injection H as <-. simpl.
    rewrite !orb_false_r, I. auto.
  - destruct (retry_pending w); [discriminate|]. injection H as <-. simpl.
    rewrite !orb_false_r. split; [intros ->; reflexivity|auto].
  - unfold socketNotificationReceived in H. simpl.
    destruct (String.eqb notification "WIND_DATA") eqn:E1.
    + injection H as <-. simpl. rewrite orb_true_r.
      split; [intros ->; reflexivity|auto].
    + destruct (String.eqb notification "WIND_DATA_ERROR") eqn:E2.
      * injection H as <-. simpl. rewrite orb_true_r.
        split; [intros ->; reflexivity|]. split; [reflexivity|].
        intros _ C. exfalso. apply C. reflexivity.
      * injection H as <-. simpl. rewrite !orb_false_r.
        split; [intros ->; reflexivity|auto].
Qed.

Lemma run_facts (config : Config) (events : list event) :
  forall w w',
    run config w events = Some w' ->
    (interval_set w = true -> interval_set w' = true)
    /\ loaded (module_state w')
       = (loaded (module_state w) || existsb is_reply_handled events)
    /\ ((windData (module_state w) <> None -> retryCount (module_state w) = 0%Z) ->
        windData (module_state w') <> None -> retryCount (module_state w') = 0%Z).
Proof.
  induction events as [|e rest IH]; intros w w' H; simpl in H.
  - injection H as <-. simpl. rewrite orb_false_r. auto.
  - destruct (step config w e) as [v|] eqn:Hs; [|discriminate].
    destruct (step_facts _ _ _ _ Hs) as (A1 & A2 & A3).
    destruct (IH v w' H) as (B1 & B2 & B3).
    split; [auto|]. split; [|auto].
    rewrite B2, A2. simpl. unfold is_reply_handled.
    rewrite !orb_assoc. reflexivity.
Qed.

(** X14.  In every world a run from [start] reaches: the interval timer is
    set; the module is loaded exactly when a [WIND_DATA] or
    [WIND_DATA_ERROR] has been received, and shows the loading text until
    then; an observation is stored only with a retry count of 0; and with a
    retry count above 0 the renderer shows the error text. *)
Theorem reachable_worlds (translate : string -> string) (config : Config)
  (events : list event) (w : World) :
  run (fst (boot config)) (snd (boot config)) events = Some w ->
  interval_set w = true
  /\ loaded (module_state w) = existsb is_reply_handled events
  /\ (windData (module_state w) <> None -> retryCount (module_state w) = 0%Z)
  /\ ((0 < retryCount (module_state w))%Z ->
      getDom translate (fst (boot config)) (module_state w)
      = Text "dimmed light small" (translate "ERROR"))
  /\ (existsb is_reply_handled events = false ->
      getDom translate (fst (boot config)) (module_state w)
      = Text "dimmed light small" (translate "LOADING")).
Proof.
  intros H. destruct (run_facts _ _ _ _ H) as (A & B & C).
  assert (I : interval_set (snd (boot config)) = true).
  { unfold boot, start, validateConfig, scheduleUpdate, absorb, getData. simpl.
    rewrite !existsb_app.
    destruct (0 >=? maxRetries config)%Z; simpl; rewrite ?orb_true_r; reflexivity. }
  assert (L : loaded (module_state (snd (boot config))) = false) by reflexivity.
  assert (D : windData (module_state w) <> None -> retryCount (module_state w) = 0%Z).
  { apply C. intros N. exfalso. apply N. reflexivity. }
  rewrite L in B. simpl in B.
  split; [auto|]. split; [exact B|]. split; [exact D|]. split.
  - intros P. unfold getDom.
    assert (R : retryCount (module_state w)
                = Z.of_nat (failures_since_success (rev events)))
      by (rewrite (run_retryCount _ _ _ _ H);
          destruct (existsb is_success events); reflexivity).
    destruct (loaded (module_state w)) eqn:Lw.
    + simpl. destruct (windData (module_state w)) eqn:Wd; [|reflexivity].
      assert (retryCount (module_state w) = 0%Z) by (apply D; congruence). lia.
    + exfalso. clear Lw. symmetry in B. rename B into Lw.
      assert (F : failures_since_success (rev events) = 0%nat).
      { clear - Lw. rewrite <- existsb_rev in Lw.
        induction (rev events) as [|e l IH]; [reflexivity|].
        simpl in Lw. apply orb_false_iff in Lw as [L1 L2].
        unfold is_reply_handled in L1. apply orb_false_iff in L1 as [S F].
        simpl. rewrite S, F. auto. }
      rewrite F in R. simpl in R. lia.
  - intros N. unfold getDom. rewrite B, N. reflexivity.
Qed.

(** X14 on three failures in a row. *)
Lemma reachable_worlds_witness :
  getDom (fun key => key) (fst (boot defaults))
    {| loaded := true; windData := None; retryCount := 3 |}
  = Text "dimmed light small" "ERROR".
Proof.
  pose proof (reachable_worlds (fun key => key) defaults three_failures
                {| module_state :=
                     {| loaded := true; windData := None; retryCount := 3 |};
                   in_flight := 0; retry_pending := 0; interval_set := true |}
                eq_refl) as (_ & _ & _ & E & _).
  apply E. reflexivity.
Defined.

Lemma gave_up_step (config : Config) (w w' : World) (e : event) :
  gave_up config w ->
  step config w e = Some w' ->
  is_success e = false ->
  gave_up config w'
  /\ e <> RetryFires
  /\ (e = Tick -> module_state w' = module_state w).
Proof.
  intros (G1 & G2 & G3) H N.
  assert (E : (retryCount (module_state w) >=? maxRetries config)%Z = true) by lia.
  destruct e as [| |notification payload]; simpl in H.
  - destruct (interval_set w); [|discriminate]. injection H as <-.
    split; [|split; [discriminate|reflexivity]].
    unfold gave_up. simpl. rewrite getData_requests.
    unfold getData. rewrite E. unfold retry_timers. simpl. repeat split; lia.
  - rewrite G3 in H. discriminate.
  - split; [|split; discriminate].
    unfold socketNotificationReceived in H. simpl in N. rewrite N in H.
    destruct (String.eqb notification "WIND_DATA_ERROR").
    + injection H as <-. unfold gave_up, absorb, requests, retry_timers.
      assert (L : (retryCount (module_state w) + 1 <? maxRetries config)%Z = false)
        by lia.
      cbn. rewrite L, G2, G3. cbn. repeat split; lia.
    + injection H as <-. unfold gave_up, absorb, requests, retry_timers.
      cbn. rewrite G2, G3. repeat split; auto.
Qed.

Lemma gave_up_requests (config : Config) (w : World) :
  gave_up config w -> requests (getData config (module_state w)) = 0%nat.
Proof.
  intros (G1 & _). rewrite getData_requests.
  assert (E : (retryCount (module_state w) >=? maxRetries config)%Z = true) by lia.
  rewrite E. reflexivity.
Qed.

(** X15.  Once the retry count has reached [maxRetries] with no request
    outstanding and no retry timer armed, the module stays so until a
    [WIND_DATA] arrives: as long as none does, no retry timer fires, no call
    of [getData] sends a request, whether on a tick or not, and further
    failure notifications (the second answer to a timed-out request, for
    one) only raise the count; ticks alone leave the module state as it is.
    A [WIND_DATA], should one arrive, sets the count to 0, and with
    [maxRetries] above 0 the next call of [getData] sends a request
    again. *)
Theorem given_up_until_success
  (config : Config) (w w' : World) (events : list event)
  (Hgave : gave_up config w)
  (Hrun : run config w events = Some w')
  (Hnone : existsb is_success events = false) :
  gave_up config w'
  /\ Forall (fun v => gave_up config v
                      /\ requests (getData config (module_state v)) = 0%nat)
            (visits config w events)
  /\ Forall (fun e => e <> RetryFires) events
  /\ (Forall (fun e => e = Tick) events -> module_state w' = module_state w)
  /\ (forall payload,
        (0 < maxRetries config)%Z ->
        requests
          (getData config
             (fst (socketNotificationReceived config "WIND_DATA" payload
                     (module_state w'))))
        = 1%nat).
Proof.
  revert w Hgave Hrun Hnone.
  induction events as [|e rest IH]; intros w G H N; simpl in H.
  - injection H as <-.
    split; [exact G|].
    split; [simpl; constructor; [split; [exact G|apply gave_up_requests; exact G]|constructor]|].
    split; [constructor|]. split; [reflexivity|].
    intros payload M. cbn. rewrite getData_requests. cbn.
    assert (E : (0 >=? maxRetries config)%Z = false) by lia.
    rewrite E. reflexivity.
  - destruct (step config w e) as [v|] eqn:Hs; [|discriminate].
    simpl in N. apply orb_false_iff in N as [Ne Nrest].
    destruct (gave_up_step _ _ _ _ G Hs Ne) as (Gv & R & T).
    destruct (IH v Gv H Nrest) as (A & B & C & D & F).
    split; [exact A|].
    split.
    { cbn [visits]. rewrite Hs.
      constructor; [split; [exact G|apply gave_up_requests; exact G]|exact B]. }
    split; [constructor; assumption|].
    split; [|exact F].
    intros Ticks. inversion Ticks as [|? ? Te Trest]; subst.
    rewrite (D Trest). apply T. reflexivity.
Qed.

(** X15 after three failures in a row: a tick, a late failure notification
    and another tick. *)
Lemma given_up_until_success_witness :
  gave_up (fst (boot defaults))
    {| module_state := {| loaded := true; windData := None; retryCount := 4 |};
       in_flight := 0; retry_pending := 0; interval_set := true |}
  /\ Forall (fun v => gave_up (fst (boot defaults)) v
                      /\ requests (getData (fst (boot defaults)) (module_state v))
                         = 0%nat)
       (visits (fst (boot defaults))
          {| module_state :=
               {| loaded := true; windData := None; retryCount := 3 |};
             in_flight := 0; retry_pending := 0; interval_set := true |}
          [Tick; Reply "WIND_DATA_ERROR" None; Tick]).
Proof.
  assert (G : gave_up (fst (boot defaults))
                {| module_state :=
                     {| loaded := true; windData := None; retryCount := 3 |};
                   in_flight := 0; retry_pending := 0; interval_set := true |}).
  { unfold gave_up. simpl. repeat split; lia. }
  pose proof (given_up_until_success (fst (boot defaults)) _ _
                [Tick; Reply "WIND_DATA_ERROR" None; Tick] G eq_refl eq_refl)
    as (A & B & _).
  split; [exact A|exact B].
Defined.

(** ** The digits of a formatted coordinate *)

Lemma digits_value_from_pos (u : Decimal.uint) :
  forall p : positive,
    digits_value_from (Zpos p) (NilEmpty.string_of_uint u)
    = Zpos (Pos.of_uint_acc u p).
Proof.
  induction u; intros p; cbn [NilEmpty.string_of_uint digits_value_from Pos.of_uint_acc];
    try reflexivity;
    rewrite <- IHu; f_equal;
    match goal with
    | |- context [digit_value ?c] =>
        let v := eval vm_compute in (digit_value c) in
        change (digit_value c) with v
    end; lia.
Qed.

Lemma digits_value_uint (u : Decimal.uint) :
  digits_value (NilEmpty.string_of_uint u) = Z.of_N (N.of_uint u).
Proof.
  unfold digits_value, N.of_uint.
  induction u; simpl; try reflexivity; try exact IHu;
    match goal with
    | |- digits_value_from ?a _ = _ =>
        let v := eval vm_compute in a in
        change a with v; apply digits_value_from_pos
    end.
Qed.

Lemma digits_value_NilZero (u : Decimal.uint) :
  digits_value (NilZero.string_of_uint u) = Z.of_N (N.of_uint u).
Proof.
  destruct u; [reflexivity|..];
    exact (digits_value_uint _).
Qed.

Lemma digits_value_decimal (n : Z) :
  (0 <= n)%Z -> digits_value (Helper.decimal_digits n) = n.
Proof.
  intros H. unfold Helper.decimal_digits.
  rewrite digits_value_NilZero, DecimalN.Unsigned.of_to. lia.
Qed.

Lemma digits_value_from_app (a b : string) :
  forall acc, digits_value_from acc (a ++ b)
              = digits_value_from (digits_value_from acc a) b.
Proof. induction a as [|c a IH]; intros acc; simpl; [reflexivity|apply IH]. Qed.

Lemma digits_value_from_shift (b : string) :
  forall acc, digits_value_from acc b
              = (acc * 10 ^ Z.of_nat (String.length b) + digits_value b)%Z.
Proof.
  unfold digits_value. induction b as [|c b IH]; intros acc.
  - simpl. lia.
  - cbn [digits_value_from String.length]. rewrite (IH (10 * acc + digit_value c)%Z).
    rewrite (IH (10 * 0 + digit_value c)%Z).
    rewrite Nat2Z.inj_succ, Z.pow_succ_r by lia. lia.
Qed.

Lemma digits_value_app (a b : string) :
  digits_value (a ++ b)
  = (digits_value a * 10 ^ Z.of_nat (String.length b) + digits_value b)%Z.
Proof.
  unfold digits_value at 1. rewrite digits_value_from_app.
  rewrite digits_value_from_shift. reflexivity.
Qed.

Lemma digits_value_zeros (k : nat) (m : string) :
  digits_value (Helper.zeros k ++ m) = digits_value m.
Proof.
  unfold digits_value. induction k as [|k IH]; simpl; [reflexivity|exact IH].
Qed.

Lemma substring_split (s : string) :
  forall k, (k <= String.length s)%nat ->
            substring 0 k s ++ substring k (String.length s - k) s = s.
Proof.
  induction s as [|c s IH]; intros k H; simpl in H.
  - destruct k; reflexivity.
  - destruct k as [|k].
    + simpl. f_equal. clear. induction s as [|c s IH]; simpl; [reflexivity|]. f_equal. exact IH.
    + simpl. f_equal. apply IH. lia.
Qed.
Lemma Qabs_opp_eq (x : Q) : Qabs (- x) = Qabs x.
Proof. destruct x as [a b]. unfold Qabs, Qopp. simpl. rewrite Z.abs_opp. reflexivity. Qed.

Lemma Qfloor_unique (y : Q) (n : Z) :
  inject_Z n <= y -> y < inject_Z n + 1 -> Qfloor y = n.
Proof.
  intros H1 H2.
  pose proof (Qfloor_le y) as A. pose proof (Qlt_floor y) as B.
  rewrite inject_Z_plus in B. change (inject_Z 1) with 1 in B.
  assert (inject_Z (Qfloor y) < inject_Z (n + 1))
    by (rewrite inject_Z_plus; change (inject_Z 1) with 1; lra).
  assert (inject_Z n < inject_Z (Qfloor y + 1))
    by (rewrite inject_Z_plus; change (inject_Z 1) with 1; lra).
  rewrite <- Zlt_Qlt in *. lia.
Qed.

(** X16.  The sign of a formatted coordinate: a negative coordinate is
    formatted as a minus sign followed by the formatting of its magnitude; a
    negative coordinate that rounds to zero keeps its sign and gives
    ["-0.000000"], while one below half a millionth on the positive side
    gives ["0.000000"]. *)
Theorem formatCoordinate_sign (Number_toString : Q -> string) :
  (forall x, 0 < x ->
     Helper.formatCoordinate Number_toString (- x)
     = "-" ++ Helper.formatCoordinate Number_toString x)
  /\ (forall x, - (1 # 2000000) < x -> x < 0 ->
        Helper.formatCoordinate Number_toString x = "-0.000000")
  /\ (forall x, 0 <= x -> x < 1 # 2000000 ->
        Helper.formatCoordinate Number_toString x = "0.000000").
Proof.
  split.
  { intros x H. unfold Helper.formatCoordinate, Helper.toFixed.
    rewrite Qabs_opp_eq. unfold Helper.Qlt_bool.
    rewrite (Qle_bool_false 0 (- x)) by lra.
    rewrite (Qle_bool_true 0 x) by lra. simpl negb. cbv iota.
    destruct (Qle_bool (inject_Z (10 ^ 21)) (Qabs x)); reflexivity. }
  assert (Z0 : forall ax : Q,
             0 <= ax -> ax < 1 # 2000000 ->
             Qle_bool (inject_Z (10 ^ 21)) ax = false
             /\ Qfloor (ax * inject_Z (10 ^ Z.of_nat 6) + (1 # 2)) = 0%Z).
  { intros ax A1 A2. split.
    - apply Qle_bool_false. apply Qlt_trans with (y := 1); [lra|reflexivity].
    - apply Qfloor_unique;
        change (inject_Z (10 ^ Z.of_nat 6)) with 1000000;
        change (inject_Z 0) with 0; lra. }
  split.
  { intros x H1 H2. unfold Helper.formatCoordinate, Helper.toFixed.
    unfold Helper.Qlt_bool. rewrite (Qle_bool_false 0 x) by lra. simpl negb. cbv iota.
    pose proof (Qabs_neg x) as Ea.
    destruct (Z0 (Qabs x)) as [E1 E2]; [lra|lra|].
    rewrite E1, E2. reflexivity. }
  intros x H1 H2. unfold Helper.formatCoordinate, Helper.toFixed.
  unfold Helper.Qlt_bool. rewrite (Qle_bool_true 0 x) by lra. simpl negb. cbv iota.
  pose proof (Qabs_pos x) as Ea.
  destruct (Z0 (Qabs x)) as [E1 E2]; [lra|lra|].
  rewrite E1, E2. reflexivity.
Qed.

(** X17.  Read back as a number, the digits before and after the point of
    a formatted coordinate are within half a millionth of the magnitude of
    the coordinate. *)
Theorem formatCoordinate_denotes (Number_toString : Q -> string) (x : Q)
  (Hx : Qabs x < inject_Z (10 ^ 21)) :
  exists integral fraction : string,
    Helper.formatCoordinate Number_toString x
    = (if Helper.Qlt_bool x 0 then "-" else "") ++ integral ++ "." ++ fraction
    /\ String.length fraction = 6%nat
    /\ Qabs (inject_Z (digits_value integral)
             + inject_Z (digits_value fraction) / 1000000
             - Qabs x) <= 1 # 2000000.
Proof.
  unfold Helper.formatCoordinate, Helper.toFixed.
  rewrite (Qle_bool_false _ _ Hx). cbv zeta.
  set (y := Qabs x * inject_Z (10 ^ Z.of_nat 6) + (1 # 2)).
  set (n := Qfloor y).
  change (6 =? 0)%nat with false. cbv iota.
  set (m := Helper.decimal_digits n).
  set (m' := if (String.length m <=? 6)%nat then _ else m).
  assert (Hn : (0 <= n)%Z).
  { unfold n. rewrite <- (Qfloor_Z 0). apply Qfloor_resp_le.
    unfold y. pose proof (Qabs_nonneg x).
    change (inject_Z (10 ^ Z.of_nat 6)) with 1000000. change (inject_Z 0) with 0.
    set (a := Qabs x) in *. clearbody a. lra. }
  assert (Vm : digits_value m' = n).
  { unfold m'. destruct (String.length m <=? 6)%nat.
    - rewrite digits_value_zeros. apply digits_value_decimal; exact Hn.
    - apply digits_value_decimal; exact Hn. }
  assert (Lm' : (7 <= String.length m')%nat).
  { pose proof (length_decimal n) as Lm. fold m in Lm.
    unfold m'. destruct (String.length m <=? 6)%nat eqn:E.
    - apply Nat.leb_le in E. rewrite string_length_app, length_zeros. lia.
    - apply Nat.leb_gt in E. lia. }
  set (a := substring 0 (String.length m' - 6) m').
  set (b := substring (String.length m' - 6) 6 m').
  assert (Lb : String.length b = 6%nat) by (apply length_substring; lia).
  assert (S : a ++ b = m').
  { pose proof (substring_split m' (String.length m' - 6) ltac:(lia)) as S0.
    replace (String.length m' - (String.length m' - 6))%nat with 6%nat in S0 by lia.
    exact S0. }
  exists a, b. split; [reflexivity|]. split; [exact Lb|].
  assert (V : (digits_value a * 1000000 + digits_value b)%Z = n).
  { rewrite <- Vm, <- S, digits_value_app, Lb. reflexivity. }
  pose proof (Qfloor_le y) as A. pose proof (Qlt_floor y) as B. fold n in A, B.
  rewrite <- V in A, B.
  rewrite inject_Z_plus, inject_Z_mult in A.
  rewrite !inject_Z_plus, inject_Z_mult in B.
  change (inject_Z 1000000) with 1000000 in A, B. change (inject_Z 1) with 1 in B.
  unfold y in A, B. change (inject_Z (10 ^ Z.of_nat 6)) with 1000000 in A, B.
  unfold Qdiv. change (/ 1000000) with (1 # 1000000).
  set (va := inject_Z (digits_value a)) in *. set (vb := inject_Z (digits_value b)) in *.
  set (ax := Qabs x) in *. clearbody va vb ax.
  apply Qabs_Qle_condition. split; lra.
Qed.

(** X17 at the default latitude. *)
Lemma formatCoordinate_denotes_witness :
  exists integral fraction : string,
    Helper.formatCoordinate (fun _ => "") 57.7089
    = (if Helper.Qlt_bool 57.7089 0 then "-" else "") ++ integral ++ "." ++ fraction
    /\ String.length fraction = 6%nat
    /\ Qabs (inject_Z (digits_value integral)
             + inject_Z (digits_value fraction) / 1000000
             - Qabs 57.7089) <= 1 # 2000000.
Proof. exact (formatCoordinate_denotes (fun _ => "") 57.7089 eq_refl). Defined.
